(** * overlay_logos: a shallow embedding of [overlay_logos.py]

    The program probes a background video, loads and resizes two logos,
    prepares the output path, and pastes both logos on every frame.

    Conventions of the embedding.
    - Python [int] is [Z]; [//] is [Z.div] (both round to the floor) and
      raises [ZeroDivisionError] on a zero divisor.
    - Python [float] is IEEE binary64, Rocq's primitive [float].
    - A Python exception is a value of [exn]; a call that may raise returns a
      [result].  Code with effects on the file system returns the final file
      system next to its result, so that effects performed before a [raise]
      are kept.
    - A numpy array is a nested list: [Mat3] for [H x W x C] arrays, [Mat2]
      for the [H x W] arrays that [cv2.imread] yields for grey images. *)

From Stdlib Require Import ZArith Floats Ascii String.
From stdpp Require Import gmap strings list fin_maps.

Local Open Scope string_scope.
Local Open Scope Z_scope.

(** ** Exceptions *)

Inductive exn : Type :=
  | FileNotFoundError (msg : string)
  | ZeroDivisionError
  | OverflowError
  | ValueError (msg : string)
  | cv2_error (msg : string)
  | FileExistsError (path : string)
  | NotADirectoryError (path : string)
  | IsADirectoryError (path : string).

Inductive exn_class : Type :=
  | ClsFileNotFound | ClsZeroDivision | ClsOverflow | ClsValue
  | ClsCv2 | ClsFileExists | ClsNotADirectory | ClsIsADirectory.

Definition class_of (e : exn) : exn_class :=
  match e with
  | FileNotFoundError _ => ClsFileNotFound
  | ZeroDivisionError => ClsZeroDivision
  | OverflowError => ClsOverflow
  | ValueError _ => ClsValue
  | cv2_error _ => ClsCv2
  | FileExistsError _ => ClsFileExists
  | NotADirectoryError _ => ClsNotADirectory
  | IsADirectoryError _ => ClsIsADirectory
  end.

Inductive result (A : Type) : Type :=
  | Ok (a : A)
  | Raise (e : exn).
Arguments Ok {A} a.
Arguments Raise {A} e.

Definition bind {A B : Type} (r : result A) (k : A -> result B) : result B :=
  match r with
  | Ok a => k a
  | Raise e => Raise e
  end.

Notation "x <- r ;; k" := (bind r (fun x => k))
  (at level 100, r at next level, right associativity).

Definition is_ok {A : Type} (r : result A) : bool :=
  match r with Ok _ => true | Raise _ => false end.

(** ** Python arithmetic *)

(** [a // b] on integers. *)
Definition floordiv (a b : Z) : result Z :=
  if b =? 0 then Raise ZeroDivisionError else Ok (a / b).

(** Conversion of an integer to a float, as in [int / float] and
    [int * float].  It is exact below [2^53], which covers every dimension
    the program handles: image and frame sizes are C [int]s. *)
Definition float_of_Z (z : Z) : float :=
  match z with
  | Z0 => PrimFloat.zero
  | Zpos _ => PrimFloat.of_uint63 (Uint63.of_Z z)
  | Zneg _ => PrimFloat.opp (PrimFloat.of_uint63 (Uint63.of_Z (- z)))
  end.

(** [a / b] on integers (true division). *)
Definition truediv (a b : Z) : result float :=
  if b =? 0 then Raise ZeroDivisionError
  else Ok (PrimFloat.div (float_of_Z a) (float_of_Z b)).

(** [int(x)] on a float: the integer part, rounding toward zero. *)
Definition int_of_float (x : float) : result Z :=
  match Prim2SF x with
  | S754_zero _ => Ok 0
  | S754_infinity _ => Raise OverflowError
  | S754_nan => Raise (ValueError "cannot convert float NaN to integer")
  | S754_finite s m e =>
      let a := if 0 <=? e then Z.pos m * 2 ^ e else Z.pos m / 2 ^ (- e) in
      Ok (if s then - a else a)
  end.

(** [x > 1] for a float [x]. *)
Definition gt_one (x : float) : bool := PrimFloat.ltb PrimFloat.one x.

(** ** Arrays

    Samples are 8-bit values, kept as [Z].  A decoded frame is always a
    three-dimensional array.  A logo read with [cv2.IMREAD_UNCHANGED] is
    three-dimensional for colour images (three channels, four with an alpha
    channel) and two-dimensional for grey images. *)

Definition sample : Type := Z.
Definition pixel : Type := list sample.
Definition frame : Type := list (list pixel).

Inductive Mat : Type :=
  | Mat2 (d : list (list sample))
  | Mat3 (d : frame).

Definition zlen {A : Type} (l : list A) : Z := Z.of_nat (length l).

Definition rows {A : Type} (d : list (list A)) : Z := zlen d.
Definition cols {A : Type} (d : list (list A)) : Z := zlen (hd [] d).
Definition chans (d : frame) : Z := zlen (hd [] (hd [] d)).

(** [image.shape[0]] and [image.shape[1]]. *)
Definition shape0 (m : Mat) : Z :=
  match m with Mat2 d => rows d | Mat3 d => rows d end.
Definition shape1 (m : Mat) : Z :=
  match m with Mat2 d => cols d | Mat3 d => cols d end.

(** A nested list is a genuine array when it is not ragged. *)
Definition rect2 {A : Type} (h w : Z) (d : list (list A)) : Prop :=
  rows d = h /\ Forall (fun r => zlen r = w) d.
Definition rect3 (h w c : Z) (d : frame) : Prop :=
  rows d = h /\ Forall (fun r => zlen r = w /\ Forall (fun p => zlen p = c) r) d.

Definition get3 (d : frame) (i j c : nat) : sample :=
  nth c (nth j (nth i d []) []) 0.
Definition get2 (d : list (list sample)) (i j : nat) : sample :=
  nth j (nth i d []) 0.

(** [tabulate n f] is [[f 0; ...; f (n-1)]]. *)
Definition tabulate {A : Type} (n : nat) (f : nat -> A) : list A :=
  map f (seq 0 n).

Section Pipeline.

(** The interpolation kernel of [cv2.resize]: from one channel of the source
    (as a function of row and column), the source size [(h, w)], the
    destination size [(h', w')] and a destination position, the sample there.
    No property below depends on the kernel. *)
Variable interp : (nat -> nat -> sample) -> Z -> Z -> Z -> Z -> nat -> nat -> sample.

(** [cv2.resize(image, (new_width, new_height))]: an empty destination size
    is refused; the result has [new_height] rows, [new_width] columns and the
    channels of the source. *)
Definition cv2_resize (image : Mat) (new_width new_height : Z) : result Mat :=
  if (new_width <=? 0) || (new_height <=? 0) then
    Raise (cv2_error "resize: empty destination size")
  else
    let h := Z.to_nat new_height in
    let w := Z.to_nat new_width in
    let k plane i j :=
      interp plane (shape0 image) (shape1 image) new_height new_width i j in
    match image with
    | Mat2 d => Ok (Mat2 (tabulate h (fun i => tabulate w (fun j => k (get2 d) i j))))
    | Mat3 d =>
        let c := Z.to_nat (chans d) in
        Ok (Mat3 (tabulate h (fun i => tabulate w (fun j =>
              tabulate c (fun ch => k (fun y x => get3 d y x ch) i j)))))
    end.

(** The inner function of [load_and_resize_logo]. *)
Definition resize_with_aspect_ratio (image : Mat) (target_width target_height : Z)
  : result (Mat * Z * Z) :=
  aspect_ratio <- truediv (shape1 image) (shape0 image) ;;
  if gt_one aspect_ratio then
    let new_width := target_width in
    new_height <- int_of_float (PrimFloat.div (float_of_Z target_width) aspect_ratio) ;;
    resized_image <- cv2_resize image new_width new_height ;;
    Ok (resized_image, new_width, new_height)
  else
    let new_height := target_height in
    new_width <- int_of_float (PrimFloat.mul (float_of_Z target_height) aspect_ratio) ;;
    resized_image <- cv2_resize image new_width new_height ;;
    Ok (resized_image, new_width, new_height).

(** ** Slice assignment [frame[y0:y1, x0:x1] = value] *)

(** A slice bound on an axis of length [n]: negative bounds count from the
    end, and the result is clamped to [0..n]. *)
Definition clamp (i n : Z) : Z :=
  if i <? 0 then Z.max 0 (i + n) else Z.min i n.

(** numpy's broadcasting rule on one axis: the value's extent equals the
    region's, or is 1. *)
Definition bcast (v r : Z) : bool := (v =? r) || (v =? 1).

(** Index into an axis of the value that may have been broadcast. *)
Definition bidx (v : Z) (i : nat) : nat := if v =? 1 then 0%nat else i.

Definition in_range (lo hi : Z) (i : nat) : bool :=
  (lo <=? Z.of_nat i) && (Z.of_nat i <? hi).

(** Can [value] be broadcast to a region of shape [(rh, rw, c)]? *)
Definition broadcastable (value : Mat) (rh rw c : Z) : bool :=
  match value with
  | Mat3 d => bcast (rows d) rh && bcast (cols d) rw && bcast (chans d) c
  | Mat2 d => bcast (rows d) rw && bcast (cols d) c
  end.

(** The sample that lands at offset [(i, j, ch)] of the region. *)
Definition value_at (value : Mat) (i j ch : nat) : sample :=
  match value with
  | Mat3 d => get3 d (bidx (rows d) i) (bidx (cols d) j) (bidx (chans d) ch)
  | Mat2 d => get2 d (bidx (rows d) j) (bidx (cols d) ch)
  end.

Definition shape_msg : string := "could not broadcast input array".

(** The frame after the samples of rows [ys..ye) and columns [xs..xe) have
    been overwritten with those of [value]. *)
Definition overwrite (f : frame) (ys ye xs xe : Z) (value : Mat) : frame :=
  imap (fun i row =>
    if in_range ys ye i then
      imap (fun j px =>
        if in_range xs xe j then
          imap (fun ch _ => value_at value (i - Z.to_nat ys) (j - Z.to_nat xs) ch) px
        else px) row
    else row) f.

(** [frame[y0:y1, x0:x1] = value]: the slice bounds are clamped, the value
    must broadcast to the shape of the region, and the region is overwritten
    in place. *)
Definition assign_region (f : frame) (y0 y1 x0 x1 : Z) (value : Mat) : result frame :=
  let ys := clamp y0 (rows f) in
  let ye := clamp y1 (rows f) in
  let xs := clamp x0 (cols f) in
  let xe := clamp x1 (cols f) in
  if broadcastable value (Z.max 0 (ye - ys)) (Z.max 0 (xe - xs)) (chans f) then
    Ok (overwrite f ys ye xs xe value)
  else Raise (ValueError shape_msg).

(** [cv2.cvtColor(frame, cv2.COLOR_BGR2RGB)]: three or four channels in, the
    first three come out in reverse order. *)
Definition bgr2rgb (px : pixel) : pixel :=
  match px with
  | b :: g :: r :: _ => [r; g; b]
  | _ => px
  end.

Definition cvtColor_BGR2RGB (f : frame) : result frame :=
  if (chans f =? 3) || (chans f =? 4) then Ok (map (map bgr2rgb) f)
  else Raise (cv2_error "cvtColor: invalid number of channels").

(** ** Paths

    Paths are Python strings.  The file system below identifies a file with
    the spelling of its path, so paths are taken in normal form (no [.] or
    [..] component, no doubled or trailing slash, no symbolic link), the way
    the callers of [overlay_logos] spell them. *)

Definition is_slash (c : ascii) : bool := Ascii.eqb c "/"%char.

Fixpoint all_slash (s : string) : bool :=
  match s with
  | EmptyString => true
  | String c s' => is_slash c && all_slash s'
  end.

Definition is_empty (s : string) : bool :=
  match s with EmptyString => true | _ => false end.

(** [p[:i]] for [i = p.rfind('/') + 1]: the part of [p] up to and including
    its last slash. *)
Fixpoint upto_last_slash (s : string) : string :=
  match s with
  | EmptyString => EmptyString
  | String c s' =>
      match upto_last_slash s' with
      | EmptyString => if is_slash c then String c EmptyString else EmptyString
      | h => String c h
      end
  end.

(** [s.rstrip('/')]. *)
Fixpoint rstrip_slash (s : string) : string :=
  match s with
  | EmptyString => EmptyString
  | String c s' =>
      match rstrip_slash s' with
      | EmptyString => if is_slash c then EmptyString else String c EmptyString
      | r => String c r
      end
  end.

(** [os.path.dirname] (posixpath). *)
Definition dirname (p : string) : string :=
  let head := upto_last_slash p in
  if all_slash head then head else rstrip_slash head.

(** ** The file system *)

Record video : Type := {
  v_width : Z;
  v_height : Z;
  v_fps : float;
  v_frames : list frame
}.

(** What a writer has produced at its target: the frames appended so far, in
    order, and whether the writer has been closed. *)
Record written : Type := {
  w_fps : float;
  w_frames : list frame;
  w_closed : bool
}.

Inductive content : Type :=
  | VideoData (v : video)     (* decodable by cv2.VideoCapture *)
  | ImageData (m : Mat)       (* decodable by cv2.imread *)
  | Undecodable               (* any other bytes *)
  | Output (w : written).     (* the target of an imageio writer *)

Inductive node : Type :=
  | Dir
  | File (c : content).

(** What is at a path: nothing at the empty path, a directory at the root. *)
Definition stat (fs : gmap string node) (p : string) : option node :=
  if is_empty p then None
  else if all_slash p then Some Dir
  else fs !! p.

(** [os.path.exists]. *)
Definition path_exists (fs : gmap string node) (p : string) : bool :=
  match stat fs p with Some _ => true | None => false end.

(** [os.mkdir]. *)
Definition mkdir (fs : gmap string node) (p : string) : result (gmap string node) :=
  if is_empty p then Raise (FileNotFoundError p)
  else if path_exists fs p then Raise (FileExistsError p)
  else if is_empty (dirname p) then Ok (<[p := Dir]> fs)
  else match stat fs (dirname p) with
       | None => Raise (FileNotFoundError p)
       | Some (File _) => Raise (NotADirectoryError p)
       | Some Dir => Ok (<[p := Dir]> fs)
       end.

(** [os.makedirs]: the missing parents first, then the leaf.  A parent that
    appeared meanwhile ([FileExistsError]) is tolerated, as in the library.
    Directories made before a failure stay. *)
Definition lift_mkdir (fs : gmap string node) (name : string)
  : result unit * gmap string node :=
  match mkdir fs name with
  | Ok fs' => (Ok tt, fs')
  | Raise e => (Raise e, fs)
  end.

Fixpoint makedirs_rec (fuel : nat) (fs : gmap string node) (name : string)
  : result unit * gmap string node :=
  match fuel with
  | O => lift_mkdir fs name
  | S fuel' =>
      let head := dirname name in
      if negb (is_empty head) && negb (path_exists fs head) then
        match makedirs_rec fuel' fs head with
        | (Ok _, fs1) => lift_mkdir fs1 name
        | (Raise (FileExistsError _), fs1) => lift_mkdir fs1 name
        | (Raise e, fs1) => (Raise e, fs1)
        end
      else lift_mkdir fs name
  end.

Definition makedirs (fs : gmap string node) (name : string)
  : result unit * gmap string node :=
  makedirs_rec (String.length name) fs name.

(** [os.remove]: deletes a file, refuses a directory. *)
Definition remove (fs : gmap string node) (p : string) : result (gmap string node) :=
  match stat fs p with
  | None => Raise (FileNotFoundError p)
  | Some Dir => Raise (IsADirectoryError p)
  | Some (File _) => Ok (delete p fs)
  end.

(** [cv2.VideoCapture(path)]: [Some] when [isOpened()]. *)
Definition VideoCapture (fs : gmap string node) (p : string) : option video :=
  match stat fs p with
  | Some (File (VideoData v)) => Some v
  | _ => None
  end.

(** [cv2.imread(path, cv2.IMREAD_UNCHANGED)]: [None] when decoding fails. *)
Definition imread (fs : gmap string node) (p : string) : option Mat :=
  match stat fs p with
  | Some (File (ImageData m)) => Some m
  | _ => None
  end.

(** [imageio.get_writer(path, fps=fps)].  The writer is modelled by its
    interface: it refuses a target whose directory does not exist, and its
    target holds the frames appended so far. *)
Definition get_writer (fs : gmap string node) (p : string) (fps : float)
  : result (gmap string node) :=
  if negb (is_empty (dirname p)) && negb (path_exists fs (dirname p)) then
    Raise (FileNotFoundError ("The directory '" ++ dirname p ++ "' does not exist"))
  else Ok (<[p := File (Output {| w_fps := fps; w_frames := []; w_closed := false |})]> fs).

Definition append_frame (img : frame) (n : node) : node :=
  match n with
  | File (Output w) =>
      File (Output {| w_fps := w_fps w; w_frames := w_frames w ++ [img];
                      w_closed := w_closed w |})
  | _ => n
  end.

Definition close_node (n : node) : node :=
  match n with
  | File (Output w) =>
      File (Output {| w_fps := w_fps w; w_frames := w_frames w; w_closed := true |})
  | _ => n
  end.

(** [writer.append_data(img)] and [writer.close()]; the writer is named by
    its target. *)
Definition append_data (fs : gmap string node) (writer : string) (img : frame)
  : gmap string node := alter (append_frame img) writer fs.
Definition writer_close (fs : gmap string node) (writer : string)
  : gmap string node := alter close_node writer fs.

(** ** The program *)

(** [load_and_resize_logo] (lines 10-49).  It only reads the file system. *)
Definition load_and_resize_logo (fs : gmap string node) (logo_path : string)
    (frame_width frame_height scale_factor : Z) : result (Mat * Z * Z) :=
  if negb (path_exists fs logo_path) then
    Raise (FileNotFoundError ("Logo image '" ++ logo_path ++ "' not found"))
  else
    match imread fs logo_path with
    | None =>
        Raise (FileNotFoundError ("Failed to load logo image from '" ++ logo_path ++ "'."))
    | Some logo =>
        logo_width <- floordiv frame_width scale_factor ;;
        logo_height <- floordiv frame_height scale_factor ;;
        resize_with_aspect_ratio logo logo_width logo_height
    end.

(** The anchors computed in the loop of [process_video] (lines 71-72, 75-76). *)
Definition overlay_x1 (frame_width logo1_width : Z) : Z :=
  frame_width / 4 - logo1_width / 2.
Definition overlay_y1 (frame_height logo1_height : Z) : Z :=
  frame_height / 2 - logo1_height / 2.
Definition overlay_x2 (frame_width logo2_width : Z) : Z :=
  frame_width * 3 / 4 - logo2_width / 2.
Definition overlay_y2 (frame_height logo2_height : Z) : Z :=
  frame_height / 2 - logo2_height / 2.

(** The two slice assignments of one iteration (lines 71-77). *)
Definition composite (f : frame)
    (logo1 : Mat) (logo1_width logo1_height : Z)
    (logo2 : Mat) (logo2_width logo2_height : Z)
    (frame_width frame_height : Z) : result frame :=
  let x1 := overlay_x1 frame_width logo1_width in
  let y1 := overlay_y1 frame_height logo1_height in
  f1 <- assign_region f y1 (y1 + logo1_height) x1 (x1 + logo1_width) logo1 ;;
  let x2 := overlay_x2 frame_width logo2_width in
  let y2 := overlay_y2 frame_height logo2_height in
  assign_region f1 y2 (y2 + logo2_height) x2 (x2 + logo2_width) logo2.

(** The loop of [process_video] (lines 66-79) over the frames that
    [video.read()] still has to deliver; the empty list is [ret == False]. *)
Fixpoint process_frames (fs : gmap string node) (frames : list frame)
    (logo1 : Mat) (logo1_width logo1_height : Z)
    (logo2 : Mat) (logo2_width logo2_height : Z)
    (writer : string) (frame_width frame_height : Z)
  : result unit * gmap string node :=
  match frames with
  | [] => (Ok tt, fs)
  | f :: rest =>
      match composite f logo1 logo1_width logo1_height
                      logo2 logo2_width logo2_height frame_width frame_height with
      | Raise e => (Raise e, fs)
      | Ok f' =>
          match cvtColor_BGR2RGB f' with
          | Raise e => (Raise e, fs)
          | Ok rgb =>
              process_frames (append_data fs writer rgb) rest
                logo1 logo1_width logo1_height logo2 logo2_width logo2_height
                writer frame_width frame_height
          end
      end
  end.

(** [process_video] (lines 52-81).  A capture that did not open delivers no
    frame. *)
Definition process_video (fs : gmap string node) (video_path : string)
    (logo1 : Mat) (logo1_width logo1_height : Z)
    (logo2 : Mat) (logo2_width logo2_height : Z)
    (writer : string) (frame_width frame_height : Z)
  : result unit * gmap string node :=
  let frames :=
    match VideoCapture fs video_path with
    | Some v => v_frames v
    | None => []
    end in
  process_frames fs frames logo1 logo1_width logo1_height
    logo2 logo2_width logo2_height writer frame_width frame_height.

(** Lines 97-107 of [overlay_logos]: probing the background. *)
Definition probe (fs : gmap string node) (background : string) : result video :=
  if negb (path_exists fs background) then
    Raise (FileNotFoundError ("Video file '" ++ background ++ "' not found"))
  else
    match VideoCapture fs background with
    | None => Raise (FileNotFoundError ("Cannot open video file '" ++ background ++ "'"))
    | Some v => Ok v
    end.

(** Lines 97-110: everything [overlay_logos] does before it touches the
    output path. *)
Definition load_inputs (fs : gmap string node) (background left_logo right_logo : string)
    (scale_factor : Z) : result (video * (Mat * Z * Z) * (Mat * Z * Z)) :=
  v <- probe fs background ;;
  l1 <- load_and_resize_logo fs left_logo (v_width v) (v_height v) scale_factor ;;
  l2 <- load_and_resize_logo fs right_logo (v_width v) (v_height v) scale_factor ;;
  Ok (v, l1, l2).

(** Lines 112-117: the output directory and the stale output file. *)
Definition prepare_output (fs : gmap string node) (output_path : string)
  : result unit * gmap string node :=
  let output_dir := dirname output_path in
  let '(r, fs1) :=
    if negb (is_empty output_dir) && negb (path_exists fs output_dir)
    then makedirs fs output_dir else (Ok tt, fs) in
  match r with
  | Raise e => (Raise e, fs1)
  | Ok _ =>
      if path_exists fs1 output_path then
        match remove fs1 output_path with
        | Ok fs2 => (Ok tt, fs2)
        | Raise e => (Raise e, fs1)
        end
      else (Ok tt, fs1)
  end.

(** Lines 119-124: open the writer, stream the frames, close the writer. *)
Definition write_video (fs : gmap string node) (background output_path : string)
    (v : video) (l1 l2 : Mat * Z * Z) : result unit * gmap string node :=
  match get_writer fs output_path (v_fps v) with
  | Raise e => (Raise e, fs)
  | Ok fs1 =>
      let '(logo1, logo1_width, logo1_height) := l1 in
      let '(logo2, logo2_width, logo2_height) := l2 in
      match process_video fs1 background logo1 logo1_width logo1_height
              logo2 logo2_width logo2_height output_path (v_width v) (v_height v) with
      | (Raise e, fs2) => (Raise e, fs2)
      | (Ok _, fs2) => (Ok tt, writer_close fs2 output_path)
      end
  end.

(** [overlay_logos] (lines 84-126). *)
Definition overlay_logos (fs : gmap string node)
    (background left_logo right_logo output_path : string) (scale_factor : Z)
  : result unit * gmap string node :=
  match load_inputs fs background left_logo right_logo scale_factor with
  | Raise e => (Raise e, fs)
  | Ok (v, l1, l2) =>
      match prepare_output fs output_path with
      | (Raise e, fs1) => (Raise e, fs1)
      | (Ok _, fs1) => write_video fs1 background output_path v l1 l2
      end
  end.

End Pipeline.

(** ** Exact values of floats, for stating rounding properties *)

(** A finite float as a fraction [(a, d)] with [d] a power of two: its value
    is [a / d]. *)
Definition float_exact (x : float) : option (Z * Z) :=
  match Prim2SF x with
  | S754_zero _ => Some (0, 1)
  | S754_finite s m e =>
      let a := if 0 <=? e then Z.pos m * 2 ^ e else Z.pos m in
      let d := if 0 <=? e then 1 else 2 ^ (- e) in
      Some (if s then - a else a, d)
  | _ => None
  end.

(** [n] is the integer part of [x]: [|n| <= |x| < |n| + 1], with the sign of
    [x]. *)
Definition truncation_of (x : float) (n : Z) : Prop :=
  match float_exact x with
  | Some (a, d) =>
      Z.abs n * d <= Z.abs a < (Z.abs n + 1) * d /\ 0 <= n * a
  | None => False
  end.

(** [n] is an integer nearest to [x]: [|x - n| <= 1/2]. *)
Definition nearest_to (x : float) (n : Z) : Prop :=
  match float_exact x with
  | Some (a, d) => 2 * Z.abs (a - n * d) <= d
  | None => False
  end.

(** ** Example data *)

(** Nearest-neighbour sampling, one possible kernel for [cv2_resize]. *)
Definition nearest (plane : nat -> nat -> sample) (sh sw dh dw : Z) (i j : nat)
  : sample :=
  plane (Z.to_nat (Z.of_nat i * sh / dh)) (Z.to_nat (Z.of_nat j * sw / dw)).

(** An [h x w x c] array filled with [v]. *)
Definition solid (h w c : nat) (v : sample) : frame :=
  repeat (repeat (repeat v c) w) h.

Definition hd_video (frames : list frame) : video :=
  {| v_width := 1920; v_height := 1080; v_fps := 30%float; v_frames := frames |}.

Definition small_video (frames : list frame) : video :=
  {| v_width := 16; v_height := 8; v_fps := 30%float; v_frames := frames |}.

(** A 1920x1080 background without frames, a 3x2 logo, a 4x1 logo, a
    481x1 logo and a file that is no image. *)
Definition fs_hd : gmap string node :=
  <["bg.mp4" := File (VideoData (hd_video []))]>
  (<["logo3x2.png" := File (ImageData (Mat3 (solid 2 3 3 7)))]>
  (<["logo4x1.png" := File (ImageData (Mat3 (solid 1 4 3 9)))]>
  (<["strip.png" := File (ImageData (Mat3 (solid 1 481 3 5)))]>
  (<["notes.txt" := File Undecodable]> ∅)))).

(** A 16x8 background with two frames, an opaque 2x2 logo, an opaque 4x2
    logo, a 2x2 logo with an alpha channel, and a stale output file. *)
Definition fs_small : gmap string node :=
  <["bg.mp4" := File (VideoData (small_video [solid 8 16 3 0; solid 8 16 3 1]))]>
  (<["left.png" := File (ImageData (Mat3 (solid 2 2 3 7)))]>
  (<["right.png" := File (ImageData (Mat3 (solid 2 4 3 9)))]>
  (<["alpha.png" := File (ImageData (Mat3 (solid 2 2 4 7)))]>
  (<["out/old.mp4" := File Undecodable]>
  (<["out" := Dir]> ∅))))).


(** The first frame of the small background, its two logos as they come out
    of the loader, and the frame after both have been pasted. *)
Definition frame0 : frame := solid 8 16 3 0.
Definition left_logo0 : Mat := Mat3 (solid 2 2 3 7).
Definition right_logo0 : Mat := Mat3 (solid 2 4 3 9).
Definition alpha_logo0 : Mat := Mat3 (solid 2 2 4 7).
Definition composited0 : frame :=
  overwrite (overwrite frame0 3 5 3 5 left_logo0) 3 5 10 14 right_logo0.

(** The sizes in a loader result. *)
Definition dims {A : Type} (r : result (A * Z * Z)) : result (Z * Z) :=
  match r with
  | Ok (_, w, h) => Ok (w, h)
  | Raise e => Raise e
  end.

(** ** Further definitions used by the properties *)

(** The extent of every row and of every pixel of a frame. *)
Definition extents (f : frame) : list (list nat) := map (map length) f.

(** A logo with an alpha channel: a colour array with four channels. *)
Definition has_alpha (m : Mat) : Prop :=
  match m with
  | Mat3 d => chans d = 4
  | Mat2 _ => False
  end.

(** What one iteration hands to the writer: the composited frame, converted
    to RGB. *)
Definition render (logo1 : Mat) (l1w l1h : Z) (logo2 : Mat) (l2w l2h : Z)
    (fw fh : Z) (f : frame) : result frame :=
  f' <- composite f logo1 l1w l1h logo2 l2w l2h fw fh ;;
  cvtColor_BGR2RGB f'.

(** The frames rendered before the first failure, and that failure if any. *)
Fixpoint render_all (rnd : frame -> result frame) (frames : list frame)
  : list frame * result unit :=
  match frames with
  | [] => ([], Ok tt)
  | f :: rest =>
      match rnd f with
      | Raise e => ([], Raise e)
      | Ok rgb => let '(outs, r) := render_all rnd rest in (rgb :: outs, r)
      end
  end.

Fixpoint ends_slash (s : string) : bool :=
  match s with
  | EmptyString => false
  | String c s' =>
      match s' with
      | EmptyString => is_slash c
      | _ => ends_slash s'
      end
  end.

(** [fs'] has everything [fs] has, and what it has more are directories. *)
Definition grown (fs fs' : gmap string node) : Prop :=
  forall q,
    match stat fs q with
    | Some n => stat fs' q = Some n
    | None => stat fs' q = None \/ stat fs' q = Some Dir
    end.

(** The second frame of the small background after compositing, and both
    frames as the writer receives them. *)
Definition frame1 : frame := solid 8 16 3 1.
Definition composited1 : frame :=
  overwrite (overwrite frame1 3 5 3 5 left_logo0) 3 5 10 14 right_logo0.
Definition rgb0 : frame := map (map bgr2rgb) composited0.
Definition rgb1 : frame := map (map bgr2rgb) composited1.

(** The kind of array and its number of channels. *)
Definition same_layout (h w : Z) (source resized : Mat) : Prop :=
  match source, resized with
  | Mat3 d, Mat3 d' => rect3 h w (chans d) d'
  | Mat2 d, Mat2 d' => rect2 h w d'
  | _, _ => False
  end.

(** The namespace that [parser.parse_args()] returns. *)
Record namespace : Type := {
  ns_background : string;
  ns_left_logo : string;
  ns_right_logo : string;
  ns_output : string;
  ns_scale_factor : Z
}.

(** The options as [argparse] is set up: three are required, [--output]
    defaults to [output.mp4] and [--scale_factor] to 4.  [None] stands for the
    exit on a missing required option. *)
Definition parse_args (background left_logo right_logo output : option string)
    (scale_factor : option Z) : option namespace :=
  match background, left_logo, right_logo with
  | Some b, Some l, Some r =>
      Some {| ns_background := b; ns_left_logo := l; ns_right_logo := r;
              ns_output := default "output.mp4" output;
              ns_scale_factor := default 4 scale_factor |}
  | _, _, _ => None
  end.




(** [os.path.basename]: what follows the last slash. *)
Fixpoint basename (p : string) : string :=
  match p with
  | EmptyString => EmptyString
  | String c p' =>
      if is_empty (upto_last_slash p') then
        if is_slash c then p' else String c p'
      else basename p'
  end.

Definition is_dot (c : ascii) : bool := Ascii.eqb c "."%char.

Fixpoint all_dots (s : string) : bool :=
  match s with
  | EmptyString => true
  | String c s' => is_dot c && all_dots s'
  end.

(** [s] cut at its last dot: what precedes the dot, and the rest from the
    dot on. *)
Fixpoint split_last_dot (s : string) : option (string * string) :=
  match s with
  | EmptyString => None
  | String c s' =>
      match split_last_dot s' with
      | Some (a, b) => Some (String c a, b)
      | None => if is_dot c then Some (EmptyString, s) else None
      end
  end.

(** [os.path.splitext] on a name without slash: the extension starts at the
    last dot, unless only dots precede it. *)
Definition splitext (name : string) : string * string :=
  match split_last_dot name with
  | Some (a, b) => if all_dots a then (name, EmptyString) else (a, b)
  | None => (name, EmptyString)
  end.

(** [os.path.isfile]. *)
Definition isfile (fs : gmap string node) (p : string) : bool :=
  match stat fs p with
  | Some (File _) => true
  | _ => false
  end.

(** The output path of the job for one partner logo (lines 17 and 24). *)
Definition job_output (filepath : string) : string :=
  "output/" ++ fst (splitext (basename filepath)) ++ ".mp4".

(** The loop of [example.py] (lines 13-26) over what [glob.glob] returned, in
    that order; [script_root] is the directory of the script.  An exception of
    a job is not caught: it ends the loop. *)
Fixpoint batch
    (interp : (nat -> nat -> sample) -> Z -> Z -> Z -> Z -> nat -> nat -> sample)
    (fs : gmap string node) (script_root : string) (listing : list string)
  : result unit * gmap string node :=
  match listing with
  | [] => (Ok tt, fs)
  | filepath :: rest =>
      if isfile fs filepath then
        match overlay_logos interp fs
                (script_root ++ "/resources/background.mp4")
                (script_root ++ "/resources/zkverse.png")
                filepath (job_output filepath) 4 with
        | (Ok _, fs') => batch interp fs' script_root rest
        | (Raise e, fs') => (Raise e, fs')
        end
      else batch interp fs script_root rest
  end.

(** A script directory with a background of two frames, the left logo, and
    four entries among the partners: a directory, a good logo, a file that is
    no image, and another good logo. *)
Definition fs_batch : gmap string node :=
  <["app/resources/background.mp4" := File (VideoData (small_video [frame0; frame1]))]>
  (<["app/resources/zkverse.png" := File (ImageData (Mat3 (solid 2 2 3 7)))]>
  (<["app/resources/partners/archive" := Dir]>
  (<["app/resources/partners/acme.png" := File (ImageData (Mat3 (solid 2 4 3 9)))]>
  (<["app/resources/partners/broken.png" := File Undecodable]>
  (<["app/resources/partners/zeta.png" := File (ImageData (Mat3 (solid 2 4 3 9)))]>
   ∅))))).

(** The file system after the job for [acme.png]. *)
Definition fs_batch_acme : gmap string node :=
  <["output/acme.mp4" := File (Output {| w_fps := 30%float; w_frames := [rgb0; rgb1];
                                         w_closed := true |})]>
    (<["output" := Dir]> fs_batch).

(** * Properties *)

(** ** Results and arithmetic *)

Lemma bind_Ok_inv {A B : Type} (r : result A) (k : A -> result B) (b : B) :
  bind r k = Ok b -> exists a, r = Ok a /\ k a = Ok b.
Proof. destruct r as [a|e]; simpl; [eauto | discriminate]. Qed.

Lemma floordiv_Ok_inv (a b q : Z) :
  floordiv a b = Ok q -> b <> 0 /\ q = a / b.
Proof.
  unfold floordiv. destruct (Z.eqb_spec b 0); [discriminate |].
  intros [= <-]. auto.
Qed.

Lemma floordiv_floor (a b q : Z) :
  0 < b -> floordiv a b = Ok q -> b * q <= a < b * q + b.
Proof.
  intros Hb [_ ->]%floordiv_Ok_inv.
  pose proof (Z.mul_div_le a b Hb). pose proof (Z.mul_succ_div_gt a b Hb). lia.
Qed.

(** [int()] is the truncation toward zero. *)
Lemma int_of_float_truncates (x : float) (n : Z) :
  int_of_float x = Ok n -> truncation_of x n.
Proof.
  unfold int_of_float, truncation_of, float_exact.
  destruct (Prim2SF x) as [s|s| |s m e]; try discriminate.
  - intros [= <-]. simpl. lia.
  - intros [= <-]. destruct (Z.leb_spec 0 e) as [He|He].
    + assert (0 < 2 ^ e) by (apply Z.pow_pos_nonneg; lia).
      destruct s; nia.
    + assert (Hd : 0 < 2 ^ (- e)) by (apply Z.pow_pos_nonneg; lia).
      pose proof (Z.mul_div_le (Z.pos m) _ Hd).
      pose proof (Z.mul_succ_div_gt (Z.pos m) _ Hd).
      assert (0 <= Z.pos m / 2 ^ (- e)) by (apply Z.div_pos; lia).
      destruct s; rewrite ?Z.abs_opp, ?Z.abs_eq by lia; nia.
Qed.

(** The integer part is unique, so a value that is not the integer part is
    not what [int()] returns. *)
Lemma truncation_of_unique (x : float) (n n' : Z) :
  truncation_of x n -> truncation_of x n' -> n = n'.
Proof.
  unfold truncation_of. destruct (float_exact x) as [[a d]|]; [|tauto].
  intros [[H1 H2] H3] [[H1' H2'] H3'].
  assert (Hd : 0 < d) by nia.
  assert (Z.abs n = Z.abs n') by nia.
  destruct (Z.eq_dec a 0) as [->|Ha]; [simpl in *; nia |].
  nia.
Qed.

(** ** The logo loader *)

Section Loader.

Variable interp : (nat -> nat -> sample) -> Z -> Z -> Z -> Z -> nat -> nat -> sample.

Lemma tabulate_length {A : Type} (n : nat) (f : nat -> A) :
  length (tabulate n f) = n.
Proof. unfold tabulate. by rewrite length_map, length_seq. Qed.

Lemma tabulate_hd {A : Type} (n : nat) (f : nat -> A) (d : A) :
  (0 < n)%nat -> hd d (tabulate n f) = f 0%nat.
Proof. destruct n; [lia | reflexivity]. Qed.

(** What [cv2_resize] returns has the size that was asked for. *)
Lemma cv2_resize_shape (image resized : Mat) (w h : Z) :
  cv2_resize interp image w h = Ok resized ->
  0 < w /\ 0 < h /\ shape1 resized = w /\ shape0 resized = h.
Proof.
  unfold cv2_resize.
  destruct (Z.leb_spec w 0); [discriminate |].
  destruct (Z.leb_spec h 0); [discriminate |]. simpl.
  assert (0 < Z.to_nat h)%nat by lia.
  destruct image as [d|d]; intros [= <-]; simpl;
    unfold rows, cols, zlen; rewrite tabulate_hd by lia;
    rewrite !tabulate_length; lia.
Qed.

(** The two branches of [resize_with_aspect_ratio], read off a result. *)
Lemma resize_with_aspect_ratio_inv (image resized : Mat) (tw th w h : Z) :
  resize_with_aspect_ratio interp image tw th = Ok (resized, w, h) ->
  exists r,
    truediv (shape1 image) (shape0 image) = Ok r /\
    cv2_resize interp image w h = Ok resized /\
    if gt_one r
    then w = tw /\ int_of_float (PrimFloat.div (float_of_Z tw) r) = Ok h
    else h = th /\ int_of_float (PrimFloat.mul (float_of_Z th) r) = Ok w.
Proof.
  unfold resize_with_aspect_ratio.
  intros (r & Hr & H)%bind_Ok_inv. exists r. split; [exact Hr |].
  destruct (gt_one r).
  - apply bind_Ok_inv in H as (n & Hn & H).
    apply bind_Ok_inv in H as (m & Hm & [= -> -> ->]). auto.
  - apply bind_Ok_inv in H as (n & Hn & H).
    apply bind_Ok_inv in H as (m & Hm & [= -> -> ->]). auto.
Qed.

Lemma load_and_resize_logo_inv (fs : gmap string node) (logo_path : string)
    (fw fh sf : Z) (resized : Mat) (w h : Z) :
  load_and_resize_logo interp fs logo_path fw fh sf = Ok (resized, w, h) ->
  exists logo,
    path_exists fs logo_path = true /\ imread fs logo_path = Some logo /\
    sf <> 0 /\
    resize_with_aspect_ratio interp logo (fw / sf) (fh / sf) = Ok (resized, w, h).
Proof.
  unfold load_and_resize_logo.
  destruct (path_exists fs logo_path); [simpl | discriminate].
  destruct (imread fs logo_path) as [logo|]; [| discriminate].
  intros (tw & [Hsf ->]%floordiv_Ok_inv & H)%bind_Ok_inv.
  apply bind_Ok_inv in H as (th & [_ ->]%floordiv_Ok_inv & H).
  exists logo. auto.
Qed.

End Loader.

(** C1, as stated, fails: in a 1920x1080 frame with scale factor 40 the box
    is 48x27; a 3x2 logo is wider than tall, so its width is set to 48 and its
    height to [int(48 / 1.5) = 32], which exceeds 27. *)
Lemma C1_counterexample :
  dims (load_and_resize_logo nearest fs_hd "logo3x2.png" 1920 1080 40) = Ok (48, 32) /\
  ~ (48 <= 1920 / 40 /\ 32 <= 1080 / 40 /\ (48 = 1920 / 40 \/ 32 = 1080 / 40)).
Proof.
  split; [vm_compute; reflexivity |].
  intros (_ & H & _). vm_compute in H. apply H. reflexivity.
Qed.

(** C1, amended: whenever [load_and_resize_logo] returns, exactly the axis
    chosen by the aspect ratio is saturated - the width equals
    [frame_width // scale_factor] when [image_width / image_height > 1], the
    height equals [frame_height // scale_factor] otherwise - so equality holds
    on at least one axis, and the returned array has the returned size.  No
    bound is stated for the other axis. *)
Theorem C1_one_axis_saturated
    (interp : (nat -> nat -> sample) -> Z -> Z -> Z -> Z -> nat -> nat -> sample)
    (fs : gmap string node) (logo_path : string) (fw fh sf : Z)
    (resized : Mat) (w h : Z) :
  load_and_resize_logo interp fs logo_path fw fh sf = Ok (resized, w, h) ->
  exists logo r,
    imread fs logo_path = Some logo /\
    truediv (shape1 logo) (shape0 logo) = Ok r /\
    (if gt_one r then w = fw / sf else h = fh / sf) /\
    (w = fw / sf \/ h = fh / sf) /\
    shape1 resized = w /\ shape0 resized = h.
Proof.
  intros (logo & _ & Hread & _ & H)%load_and_resize_logo_inv.
  apply resize_with_aspect_ratio_inv in H as (r & Hr & Hres & Hbranch).
  apply cv2_resize_shape in Hres as (_ & _ & Hw & Hh).
  exists logo, r. repeat split; try assumption.
  - destruct (gt_one r); tauto.
  - destruct (gt_one r); tauto.
Qed.

Lemma C1_one_axis_saturated_witness :
  load_and_resize_logo nearest fs_small "right.png" 16 8 4
    = Ok (Mat3 (solid 2 4 3 9), 4, 2) /\
  exists logo r,
    imread fs_small "right.png" = Some logo /\
    truediv (shape1 logo) (shape0 logo) = Ok r /\
    (if gt_one r then 4 = 16 / 4 else 2 = 8 / 4) /\
    (4 = 16 / 4 \/ 2 = 8 / 4) /\
    shape1 (Mat3 (solid 2 4 3 9)) = 4 /\ shape0 (Mat3 (solid 2 4 3 9)) = 2.
Proof.
  split; [vm_compute; reflexivity |].
  apply (C1_one_axis_saturated nearest fs_small "right.png" 16 8 4).
  vm_compute; reflexivity.
Defined.

(** C3, as stated, fails: [int()] does not round to the nearest integer.  For
    a 4x1 logo and a box 47 wide the height is [int(47 / 4.0)], that is
    [int(11.75) = 11], while the nearest integer is 12. *)
Lemma C3_counterexample :
  dims (load_and_resize_logo nearest fs_hd "logo4x1.png" 1900 1080 40) = Ok (47, 11) /\
  truediv 4 1 = Ok 4%float /\ gt_one 4%float = true /\ 1900 / 40 = 47 /\
  float_exact (PrimFloat.div (float_of_Z 47) 4%float) = Some (47 * 2 ^ 47, 4 * 2 ^ 47) /\
  ~ nearest_to (PrimFloat.div (float_of_Z 47) 4%float) 11 /\
  nearest_to (PrimFloat.div (float_of_Z 47) 4%float) 12.
Proof.
  assert (E : float_exact (PrimFloat.div (float_of_Z 47) 4%float)
              = Some (47 * 2 ^ 47, 4 * 2 ^ 47)) by (vm_compute; reflexivity).
  repeat split; try (vm_compute; reflexivity).
  - unfold nearest_to. rewrite E. lia.
  - unfold nearest_to. rewrite E. lia.
Qed.

(** C3, amended: the axis that is not saturated is the integer part
    (rounding toward zero) of the scaled size: with [r = image_width /
    image_height], if [r > 1] then [new_width = frame_width // scale_factor]
    and [new_height = int(new_width / r)]; otherwise [new_height =
    frame_height // scale_factor] and [new_width = int(new_height * r)]. *)
Theorem C3_other_axis_truncated
    (interp : (nat -> nat -> sample) -> Z -> Z -> Z -> Z -> nat -> nat -> sample)
    (fs : gmap string node) (logo_path : string) (fw fh sf : Z)
    (resized : Mat) (w h : Z) :
  load_and_resize_logo interp fs logo_path fw fh sf = Ok (resized, w, h) ->
  exists logo r,
    imread fs logo_path = Some logo /\
    truediv (shape1 logo) (shape0 logo) = Ok r /\
    if gt_one r
    then w = fw / sf /\ truncation_of (PrimFloat.div (float_of_Z w) r) h
    else h = fh / sf /\ truncation_of (PrimFloat.mul (float_of_Z h) r) w.
Proof.
  intros (logo & _ & Hread & _ & H)%load_and_resize_logo_inv.
  apply resize_with_aspect_ratio_inv in H as (r & Hr & _ & Hbranch).
  exists logo, r. repeat split; try assumption.
  destruct (gt_one r); destruct Hbranch as [-> Hint];
    (split; [reflexivity | by apply int_of_float_truncates]).
Qed.

Lemma C3_other_axis_truncated_witness :
  load_and_resize_logo nearest fs_small "right.png" 16 8 4
    = Ok (Mat3 (solid 2 4 3 9), 4, 2) /\
  exists logo r,
    imread fs_small "right.png" = Some logo /\
    truediv (shape1 logo) (shape0 logo) = Ok r /\
    if gt_one r
    then 4 = 16 / 4 /\ truncation_of (PrimFloat.div (float_of_Z 4) r) 2
    else 2 = 8 / 4 /\ truncation_of (PrimFloat.mul (float_of_Z 2) r) 4.
Proof.
  split; [vm_compute; reflexivity |].
  apply (C3_other_axis_truncated nearest fs_small "right.png" 16 8 4
           (Mat3 (solid 2 4 3 9))).
  vm_compute; reflexivity.
Defined.

(** ** Slice assignment *)

Lemma map_imap_invariant {A B : Type} (h : A -> B) (g : nat -> A -> A) (l : list A) :
  (forall i x, h (g i x) = h x) -> map h (imap g l) = map h l.
Proof.
  revert g. induction l as [|x l IH]; intros g Hg; [reflexivity |].
  rewrite imap_cons. simpl. rewrite Hg. f_equal.
  apply IH. intros i y. apply Hg.
Qed.

Lemma overwrite_extents (f : frame) (ys ye xs xe : Z) (value : Mat) :
  extents (overwrite f ys ye xs xe value) = extents f.
Proof.
  unfold extents, overwrite. apply map_imap_invariant. intros i row.
  destruct (in_range ys ye i); [| reflexivity].
  apply map_imap_invariant. intros j px.
  destruct (in_range xs xe j); [| reflexivity].
  apply length_imap.
Qed.

Lemma extents_rows (f g : frame) : extents f = extents g -> rows f = rows g.
Proof.
  intros H. unfold rows, zlen. f_equal.
  apply (f_equal length) in H. unfold extents in H. by rewrite !length_map in H.
Qed.

Lemma extents_cols (f g : frame) : extents f = extents g -> cols f = cols g.
Proof.
  unfold extents, cols, zlen. intros H. f_equal.
  destruct f as [|r f], g as [|r' g]; try discriminate; [reflexivity |].
  simpl in *. injection H as H _.
  apply (f_equal length) in H. by rewrite !length_map in H.
Qed.

Lemma extents_chans (f g : frame) : extents f = extents g -> chans f = chans g.
Proof.
  unfold extents, chans, zlen. intros H. f_equal.
  destruct f as [|r f], g as [|r' g]; try discriminate; [reflexivity |].
  simpl in *. injection H as H _.
  destruct r as [|p r], r' as [|p' r']; try discriminate; [reflexivity |].
  simpl in *. by injection H as H _.
Qed.

Lemma assign_region_extents (f f' : frame) (y0 y1 x0 x1 : Z) (value : Mat) :
  assign_region f y0 y1 x0 x1 value = Ok f' -> extents f' = extents f.
Proof.
  unfold assign_region. destruct (broadcastable _ _ _ _); [| discriminate].
  intros [= <-]. apply overwrite_extents.
Qed.

Lemma nth_imap {A B : Type} (g : nat -> A -> B) (l : list A) (i : nat) (dA : A) (dB : B) :
  (i < length l)%nat -> nth i (imap g l) dB = g i (nth i l dA).
Proof.
  intros Hi. rewrite !nth_lookup, list_lookup_imap.
  destruct (lookup_lt_is_Some_2 l i Hi) as [x ->]. reflexivity.
Qed.

Lemma nth_imap_ge {A B : Type} (g : nat -> A -> B) (l : list A) (i : nat) (dB : B) :
  (length l <= i)%nat -> nth i (imap g l) dB = dB.
Proof.
  intros Hi. apply nth_overflow. by rewrite length_imap.
Qed.

(** Reading a sample of an overwritten frame. *)
Lemma get3_overwrite (f : frame) (ys ye xs xe : Z) (value : Mat) (i j ch : nat) :
  (i < length f)%nat ->
  (j < length (nth i f []))%nat ->
  (ch < length (nth j (nth i f []) []))%nat ->
  get3 (overwrite f ys ye xs xe value) i j ch =
    if in_range ys ye i && in_range xs xe j
    then value_at value (i - Z.to_nat ys) (j - Z.to_nat xs) ch
    else get3 f i j ch.
Proof.
  intros Hi Hj Hc. unfold get3, overwrite.
  rewrite (nth_imap _ f i []) by exact Hi.
  destruct (in_range ys ye i); [| reflexivity]. simpl.
  rewrite (nth_imap _ _ j []) by exact Hj.
  destruct (in_range xs xe j); [| reflexivity].
  by rewrite (nth_imap _ _ ch 0) by exact Hc.
Qed.

Lemma rect3_row (h w c : Z) (f : frame) (i : nat) :
  rect3 h w c f -> (i < length f)%nat ->
  zlen (nth i f []) = w /\ Forall (fun p => zlen p = c) (nth i f []).
Proof.
  intros [_ Hf] Hi.
  destruct (lookup_lt_is_Some_2 f i Hi) as [row Hrow].
  rewrite (nth_lookup_Some _ _ _ _ Hrow).
  exact (proj1 (Forall_lookup _ f) Hf i row Hrow).
Qed.

Lemma rect3_pixel (h w c : Z) (f : frame) (i j : nat) :
  rect3 h w c f -> (i < length f)%nat -> (j < length (nth i f []))%nat ->
  zlen (nth j (nth i f []) []) = c.
Proof.
  intros Hf Hi Hj. destruct (rect3_row h w c f i Hf Hi) as [_ Hrow].
  destruct (lookup_lt_is_Some_2 _ j Hj) as [px Hpx].
  rewrite (nth_lookup_Some _ _ _ _ Hpx).
  exact (proj1 (Forall_lookup _ _) Hrow j px Hpx).
Qed.

Lemma rect3_cols (h w c : Z) (f : frame) : rect3 h w c f -> 0 < h -> cols f = w.
Proof.
  intros Hf Hh. pose proof Hf as [Hrows _]. unfold rows, zlen in Hrows.
  destruct f as [|r f]; [simpl in Hrows; lia |].
  apply (rect3_row h w c (r :: f) 0 Hf). simpl. lia.
Qed.

Lemma rect3_chans (h w c : Z) (f : frame) :
  rect3 h w c f -> 0 < h -> 0 < w -> chans f = c.
Proof.
  intros Hf Hh Hw. pose proof Hf as [Hrows _]. unfold rows, zlen in Hrows.
  destruct f as [|r f]; [simpl in Hrows; lia |].
  assert (Hr : zlen r = w) by (apply (rect3_row h w c (r :: f) 0 Hf); simpl; lia).
  destruct r as [|p r]; [unfold zlen in Hr; simpl in Hr; lia |].
  apply (rect3_pixel h w c ((p :: r) :: f) 0 0 Hf); simpl; lia.
Qed.

Lemma clamp_inside (i n : Z) : 0 <= i <= n -> clamp i n = i.
Proof. unfold clamp. intros H. destruct (Z.ltb_spec i 0); lia. Qed.

(** A value with the channels of the frame, assigned to a rectangle that lies
    inside the frame, is copied there sample by sample, and nothing else
    changes. *)
Lemma assign_region_inside (f d : frame) (H W C lh lw y x : Z) :
  rect3 H W C f -> rect3 lh lw C d ->
  0 < lh -> 0 < lw ->
  0 <= y -> y + lh <= H -> 0 <= x -> x + lw <= W ->
  exists f',
    assign_region f y (y + lh) x (x + lw) (Mat3 d) = Ok f' /\
    extents f' = extents f /\
    forall i j ch : nat,
      Z.of_nat i < H -> Z.of_nat j < W -> Z.of_nat ch < C ->
      get3 f' i j ch =
        if in_range y (y + lh) i && in_range x (x + lw) j
        then get3 d (i - Z.to_nat y) (j - Z.to_nat x) ch
        else get3 f i j ch.
Proof.
  intros Hf Hd Hlh Hlw Hy Hyh Hx Hxw.
  assert (Hrows : rows f = H) by apply Hf.
  assert (Hcols : cols f = W) by (apply (rect3_cols H W C); [done | lia]).
  assert (Hchans : chans f = C) by (apply (rect3_chans H W C); [done | lia | lia]).
  assert (Hdrows : rows d = lh) by apply Hd.
  assert (Hdcols : cols d = lw) by (apply (rect3_cols lh lw C); done).
  assert (Hdchans : chans d = C) by (apply (rect3_chans lh lw C); done).
  exists (overwrite f y (y + lh) x (x + lw) (Mat3 d)).
  split; [| split].
  - unfold assign_region. rewrite Hrows, Hcols, Hchans.
    rewrite !clamp_inside by lia.
    replace (broadcastable _ _ _ _) with true; [reflexivity |].
    simpl. rewrite Hdrows, Hdcols, Hdchans. unfold bcast.
    replace (Z.max 0 (y + lh - y)) with lh by lia.
    replace (Z.max 0 (x + lw - x)) with lw by lia.
    by rewrite !Z.eqb_refl.
  - apply overwrite_extents.
  - intros i j ch Hi Hj Hch.
    assert (Hi' : (i < length f)%nat) by (unfold rows, zlen in Hrows; lia).
    destruct (rect3_row H W C f i Hf Hi') as [Hrow _].
    assert (Hj' : (j < length (nth i f []))%nat) by (unfold zlen in Hrow; lia).
    pose proof (rect3_pixel H W C f i j Hf Hi' Hj') as Hpx.
    rewrite get3_overwrite by (unfold zlen in Hpx; lia).
    destruct (in_range y (y + lh) i) eqn:Ei; [| reflexivity].
    destruct (in_range x (x + lw) j) eqn:Ej; [| reflexivity].
    simpl. rewrite Hdrows, Hdcols, Hdchans.
    unfold in_range in Ei, Ej.
    apply andb_true_iff in Ei as [Ei1 Ei2]. apply andb_true_iff in Ej as [Ej1 Ej2].
    apply Z.leb_le in Ei1, Ej1. apply Z.ltb_lt in Ei2, Ej2.
    unfold bidx.
    destruct (Z.eqb_spec lh 1), (Z.eqb_spec lw 1), (Z.eqb_spec C 1);
      f_equal; lia.
Qed.

Lemma rect3_by_extents (h w c : Z) (f g : frame) :
  extents f = extents g -> rect3 h w c g -> rect3 h w c f.
Proof.
  intros He [Hrows Hall]. split.
  - rewrite <- Hrows. by apply extents_rows.
  - assert (Hg : Forall (fun ns : list nat =>
                 zlen ns = w /\ Forall (fun n => Z.of_nat n = c) ns) (extents g)).
    { unfold extents. apply Forall_fmap. eapply Forall_impl; [exact Hall |].
      intros r [Hr Hp]. split.
      - unfold zlen in *. by rewrite length_map.
      - apply Forall_fmap. exact Hp. }
    rewrite <- He in Hg. unfold extents in Hg. apply Forall_fmap in Hg.
    eapply Forall_impl; [exact Hg |].
    intros r [Hr Hp]. split.
    + unfold zlen in *. simpl in Hr. by rewrite length_map in Hr.
    + apply Forall_fmap in Hp. exact Hp.
Qed.

Lemma cvtColor_BGR2RGB_size (f rgb : frame) :
  cvtColor_BGR2RGB f = Ok rgb -> rows rgb = rows f /\ cols rgb = cols f.
Proof.
  unfold cvtColor_BGR2RGB. destruct (_ || _); [| discriminate].
  intros [= <-]. unfold rows, cols, zlen. split.
  - by rewrite length_map.
  - destruct f as [|r f]; [reflexivity |]. simpl. by rewrite length_map.
Qed.

Lemma composite_extents (f f' : frame)
    (logo1 : Mat) (l1w l1h : Z) (logo2 : Mat) (l2w l2h : Z) (fw fh : Z) :
  composite f logo1 l1w l1h logo2 l2w l2h fw fh = Ok f' -> extents f' = extents f.
Proof.
  unfold composite. intros (f1 & H1 & H2)%bind_Ok_inv.
  apply assign_region_extents in H1, H2. congruence.
Qed.

(** C8: a composited frame has the rows and columns (and channels) of the
    decoded frame it was made from, and so has the frame handed to the writer
    after the colour conversion: the two slice assignments change samples,
    never the size of the array. *)
Theorem C8_composite_keeps_size (f f' : frame)
    (logo1 : Mat) (l1w l1h : Z) (logo2 : Mat) (l2w l2h : Z) (fw fh : Z) :
  composite f logo1 l1w l1h logo2 l2w l2h fw fh = Ok f' ->
  rows f' = rows f /\ cols f' = cols f /\ chans f' = chans f /\
  extents f' = extents f /\
  forall rgb, cvtColor_BGR2RGB f' = Ok rgb -> rows rgb = rows f /\ cols rgb = cols f.
Proof.
  intros He%composite_extents.
  pose proof (extents_rows _ _ He) as Hr. pose proof (extents_cols _ _ He) as Hc.
  repeat split; try assumption.
  - by apply extents_chans.
  - apply cvtColor_BGR2RGB_size in H as [-> _]. exact Hr.
  - apply cvtColor_BGR2RGB_size in H as [_ ->]. exact Hc.
Qed.

Lemma C8_composite_keeps_size_witness :
  composite frame0 left_logo0 2 2 right_logo0 4 2 16 8 = Ok composited0 /\
  rows composited0 = rows frame0 /\ cols composited0 = cols frame0 /\
  chans composited0 = chans frame0 /\
  extents composited0 = extents frame0 /\
  forall rgb, cvtColor_BGR2RGB composited0 = Ok rgb ->
    rows rgb = rows frame0 /\ cols rgb = cols frame0.
Proof.
  split; [vm_compute; reflexivity |].
  apply (C8_composite_keeps_size frame0 composited0 left_logo0 2 2 right_logo0 4 2 16 8).
  vm_compute; reflexivity.
Defined.

(** ** Compositing *)

Lemma assign_region_alpha (f : frame) (y0 y1 x0 x1 : Z) (value : Mat) :
  chans f = 3 -> has_alpha value ->
  assign_region f y0 y1 x0 x1 value = Raise (ValueError shape_msg).
Proof.
  intros Hf Hv. destruct value as [d|d]; [contradiction |]. simpl in Hv.
  unfold assign_region. simpl. rewrite Hf, Hv. simpl.
  by rewrite !andb_false_r.
Qed.

Lemma assign_region_result (f : frame) (y0 y1 x0 x1 : Z) (value : Mat) :
  (exists f', assign_region f y0 y1 x0 x1 value = Ok f') \/
  assign_region f y0 y1 x0 x1 value = Raise (ValueError shape_msg).
Proof.
  unfold assign_region. destruct (broadcastable _ _ _ _); eauto.
Qed.

Lemma composite_alpha (f : frame)
    (logo1 : Mat) (l1w l1h : Z) (logo2 : Mat) (l2w l2h : Z) (fw fh : Z) :
  chans f = 3 -> has_alpha logo1 \/ has_alpha logo2 ->
  composite f logo1 l1w l1h logo2 l2w l2h fw fh = Raise (ValueError shape_msg).
Proof.
  intros Hf Halpha. unfold composite.
  destruct (assign_region_result f (overlay_y1 fh l1h) (overlay_y1 fh l1h + l1h)
              (overlay_x1 fw l1w) (overlay_x1 fw l1w + l1w) logo1) as [[f1 H1]|H1];
    rewrite H1; simpl; [| reflexivity].
  destruct Halpha as [Ha|Ha].
  - rewrite assign_region_alpha in H1 by assumption. discriminate.
  - apply assign_region_alpha; [| assumption].
    apply assign_region_extents, extents_chans in H1. congruence.
Qed.

Lemma rect3_solid (h w c : nat) (v : sample) :
  rect3 (Z.of_nat h) (Z.of_nat w) (Z.of_nat c) (solid h w c v).
Proof.
  unfold rect3, solid, rows, zlen. rewrite repeat_length. split; [reflexivity |].
  apply List.Forall_forall. intros r ->%repeat_spec. rewrite repeat_length.
  split; [reflexivity |].
  apply List.Forall_forall. intros p ->%repeat_spec. by rewrite repeat_length.
Qed.

(** X9: A logo that carries an alpha channel cannot be pasted on a three-channel
    frame: whichever of the two logos it is, the iteration raises the
    broadcast error before anything is handed to the writer. *)
Theorem alpha_logo_is_rejected
    (fs : gmap string node) (f : frame) (rest : list frame) (H W : Z)
    (logo1 : Mat) (l1w l1h : Z) (logo2 : Mat) (l2w l2h : Z)
    (writer : string) (fw fh : Z) :
  rect3 H W 3 f -> 0 < H -> 0 < W ->
  has_alpha logo1 \/ has_alpha logo2 ->
  composite f logo1 l1w l1h logo2 l2w l2h fw fh = Raise (ValueError shape_msg) /\
  process_frames fs (f :: rest) logo1 l1w l1h logo2 l2w l2h writer fw fh
    = (Raise (ValueError shape_msg), fs).
Proof.
  intros Hf HH HW Halpha.
  assert (Hc : chans f = 3) by (by apply (rect3_chans H W 3)).
  pose proof (composite_alpha f logo1 l1w l1h logo2 l2w l2h fw fh Hc Halpha) as E.
  split; [exact E |]. simpl. by rewrite E.
Qed.

Lemma alpha_logo_is_rejected_witness :
  (rect3 8 16 3 frame0 /\ 0 < 8 /\ 0 < 16 /\
   (has_alpha alpha_logo0 \/ has_alpha right_logo0)) /\
  composite frame0 alpha_logo0 2 2 right_logo0 4 2 16 8 = Raise (ValueError shape_msg) /\
  process_frames fs_small [frame0] alpha_logo0 2 2 right_logo0 4 2 "out/new.mp4" 16 8
    = (Raise (ValueError shape_msg), fs_small).
Proof.
  assert (Hr : rect3 8 16 3 frame0) by exact (rect3_solid 8 16 3 0).
  assert (Ha : has_alpha alpha_logo0 \/ has_alpha right_logo0)
    by (left; reflexivity).
  split; [repeat split; try lia; try apply Hr; exact Ha |].
  apply (alpha_logo_is_rejected fs_small frame0 [] 8 16
           alpha_logo0 2 2 right_logo0 4 2 "out/new.mp4" 16 8 Hr); [lia | lia | exact Ha].
Defined.


(** X8: One iteration of the loop on a three-channel frame, with two
    three-channel logos whose rectangles lie inside the frame: the right logo
    sits at its anchor, the left logo at its anchor wherever the right one
    does not cover it, and every other sample is the decoded one. *)
Theorem composite_places_both_logos
    (f d1 d2 : frame) (H W l1w l1h l2w l2h : Z) :
  rect3 H W 3 f -> rect3 l1h l1w 3 d1 -> rect3 l2h l2w 3 d2 ->
  0 < l1h -> 0 < l1w -> 0 < l2h -> 0 < l2w ->
  0 <= overlay_x1 W l1w -> overlay_x1 W l1w + l1w <= W ->
  0 <= overlay_y1 H l1h -> overlay_y1 H l1h + l1h <= H ->
  0 <= overlay_x2 W l2w -> overlay_x2 W l2w + l2w <= W ->
  0 <= overlay_y2 H l2h -> overlay_y2 H l2h + l2h <= H ->
  exists f',
    composite f (Mat3 d1) l1w l1h (Mat3 d2) l2w l2h W H = Ok f' /\
    forall i j ch : nat,
      Z.of_nat i < H -> Z.of_nat j < W -> Z.of_nat ch < 3 ->
      get3 f' i j ch =
        if in_range (overlay_y2 H l2h) (overlay_y2 H l2h + l2h) i
           && in_range (overlay_x2 W l2w) (overlay_x2 W l2w + l2w) j
        then get3 d2 (i - Z.to_nat (overlay_y2 H l2h)) (j - Z.to_nat (overlay_x2 W l2w)) ch
        else if in_range (overlay_y1 H l1h) (overlay_y1 H l1h + l1h) i
                && in_range (overlay_x1 W l1w) (overlay_x1 W l1w + l1w) j
        then get3 d1 (i - Z.to_nat (overlay_y1 H l1h)) (j - Z.to_nat (overlay_x1 W l1w)) ch
        else get3 f i j ch.
Proof.
  intros Hf Hd1 Hd2 ? ? ? ? ? ? ? ? ? ? ? ?.
  destruct (assign_region_inside f d1 H W 3 l1h l1w
              (overlay_y1 H l1h) (overlay_x1 W l1w)) as (f1 & E1 & X1 & G1);
    try assumption.
  assert (Hf1 : rect3 H W 3 f1) by (by apply (rect3_by_extents H W 3 f1 f)).
  destruct (assign_region_inside f1 d2 H W 3 l2h l2w
              (overlay_y2 H l2h) (overlay_x2 W l2w)) as (f' & E2 & X2 & G2);
    try assumption.
  exists f'. split.
  - unfold composite. rewrite E1. simpl. exact E2.
  - intros i j ch Hi Hj Hch. rewrite G2 by assumption.
    destruct (_ && _); [reflexivity |]. by apply G1.
Qed.

Lemma composite_places_both_logos_witness :
  (rect3 8 16 3 frame0 /\ rect3 2 2 3 (solid 2 2 3 7) /\ rect3 2 4 3 (solid 2 4 3 9)) /\
  exists f',
    composite frame0 left_logo0 2 2 right_logo0 4 2 16 8 = Ok f' /\
    forall i j ch : nat,
      Z.of_nat i < 8 -> Z.of_nat j < 16 -> Z.of_nat ch < 3 ->
      get3 f' i j ch =
        if in_range (overlay_y2 8 2) (overlay_y2 8 2 + 2) i
           && in_range (overlay_x2 16 4) (overlay_x2 16 4 + 4) j
        then get3 (solid 2 4 3 9) (i - Z.to_nat (overlay_y2 8 2)) (j - Z.to_nat (overlay_x2 16 4)) ch
        else if in_range (overlay_y1 8 2) (overlay_y1 8 2 + 2) i
                && in_range (overlay_x1 16 2) (overlay_x1 16 2 + 2) j
        then get3 (solid 2 2 3 7) (i - Z.to_nat (overlay_y1 8 2)) (j - Z.to_nat (overlay_x1 16 2)) ch
        else get3 frame0 i j ch.
Proof.
  assert (Hf : rect3 8 16 3 frame0) by exact (rect3_solid 8 16 3 0).
  assert (H1 : rect3 2 2 3 (solid 2 2 3 7)) by exact (rect3_solid 2 2 3 7).
  assert (H2 : rect3 2 4 3 (solid 2 4 3 9)) by exact (rect3_solid 2 4 3 9).
  split; [auto |].
  apply (composite_places_both_logos frame0 (solid 2 2 3 7) (solid 2 4 3 9)
           8 16 2 2 4 2 Hf H1 H2); vm_compute; congruence.
Defined.

(** ** Failures before the output path is touched *)

Section Failures.

Variable interp : (nat -> nat -> sample) -> Z -> Z -> Z -> Z -> nat -> nat -> sample.

Lemma overlay_logos_load_failure (fs : gmap string node)
    (background left_logo right_logo output_path : string) (scale_factor : Z) (e : exn) :
  load_inputs interp fs background left_logo right_logo scale_factor = Raise e ->
  overlay_logos interp fs background left_logo right_logo output_path scale_factor
    = (Raise e, fs).
Proof. unfold overlay_logos. by intros ->. Qed.

Lemma probe_Ok_inv (fs : gmap string node) (background : string) (v : video) :
  probe fs background = Ok v ->
  path_exists fs background = true /\ VideoCapture fs background = Some v.
Proof.
  unfold probe. destruct (path_exists fs background); [simpl | discriminate].
  destruct (VideoCapture fs background); [| discriminate]. by intros [= ->].
Qed.

Lemma imread_exists (fs : gmap string node) (p : string) (m : Mat) :
  imread fs p = Some m -> path_exists fs p = true.
Proof. unfold imread, path_exists. by destruct (stat fs p). Qed.


(** X4: The four failures of the inputs raise four different messages, all of
    the class [FileNotFoundError]: the background is missing, the background
    does not open, a logo is missing, a logo does not decode. *)
Theorem input_errors_by_cause (fs : gmap string node)
    (background left_logo right_logo output_path logo_path : string)
    (scale_factor fw fh : Z) :
  (path_exists fs background = false ->
     overlay_logos interp fs background left_logo right_logo output_path scale_factor
       = (Raise (FileNotFoundError ("Video file '" ++ background ++ "' not found")), fs)) /\
  (path_exists fs background = true -> VideoCapture fs background = None ->
     overlay_logos interp fs background left_logo right_logo output_path scale_factor
       = (Raise (FileNotFoundError ("Cannot open video file '" ++ background ++ "'")), fs)) /\
  (path_exists fs logo_path = false ->
     load_and_resize_logo interp fs logo_path fw fh scale_factor
       = Raise (FileNotFoundError ("Logo image '" ++ logo_path ++ "' not found"))) /\
  (path_exists fs logo_path = true -> imread fs logo_path = None ->
     load_and_resize_logo interp fs logo_path fw fh scale_factor
       = Raise (FileNotFoundError
                  ("Failed to load logo image from '" ++ logo_path ++ "'."))) /\
  (forall p q : string,
     "Video file '" ++ p ++ "' not found" <> "Cannot open video file '" ++ q ++ "'" /\
     "Logo image '" ++ p ++ "' not found" <> "Failed to load logo image from '" ++ q ++ "'." /\
     "Video file '" ++ p ++ "' not found" <> "Logo image '" ++ q ++ "' not found" /\
     "Cannot open video file '" ++ p ++ "'" <> "Failed to load logo image from '" ++ q ++ "'.").
Proof.
  repeat split.
  - intros Hb. apply overlay_logos_load_failure.
    unfold load_inputs, probe. by rewrite Hb.
  - intros Hb Hv. apply overlay_logos_load_failure.
    unfold load_inputs, probe. by rewrite Hb, Hv.
  - intros Hl. unfold load_and_resize_logo. by rewrite Hl.
  - intros Hl Hi. unfold load_and_resize_logo. by rewrite Hl, Hi.
  - discriminate.
  - discriminate.
  - discriminate.
  - discriminate.
Qed.

(** X6: Whatever is wrong with the inputs - a missing or unreadable background,
    a missing or undecodable logo, a zero scale factor - the run raises and
    the file system is exactly what it was: no directory is made and a stale
    output file is not deleted. *)
Theorem bad_input_leaves_fs_untouched (fs : gmap string node)
    (background left_logo right_logo output_path : string) (scale_factor : Z) :
  path_exists fs background = false \/ VideoCapture fs background = None \/
  path_exists fs left_logo = false \/ imread fs left_logo = None \/
  path_exists fs right_logo = false \/ imread fs right_logo = None \/
  scale_factor = 0 ->
  exists e,
    overlay_logos interp fs background left_logo right_logo output_path scale_factor
      = (Raise e, fs).
Proof.
  intros Hbad.
  destruct (load_inputs interp fs background left_logo right_logo scale_factor)
    as [[[v l1] l2]|e] eqn:E.
  - exfalso. unfold load_inputs in E.
    apply bind_Ok_inv in E as (v' & Hv & E).
    apply bind_Ok_inv in E as ([[m1 w1] h1] & H1 & E).
    apply bind_Ok_inv in E as ([[m2 w2] h2] & H2 & _).
    apply probe_Ok_inv in Hv as [Hb Hv].
    apply load_and_resize_logo_inv in H1 as (logo1 & He1 & Hr1 & Hsf & _).
    apply load_and_resize_logo_inv in H2 as (logo2 & He2 & Hr2 & _ & _).
    destruct Hbad as [?|[?|[?|[?|[?|[?|?]]]]]]; congruence.
  - exists e. by apply overlay_logos_load_failure.
Qed.

(** X5: The not-found error names the first step that fails: the background; the
    left logo once the background has opened; the right logo once the left
    one has been loaded. *)
Theorem first_missing_input_is_reported (fs : gmap string node)
    (background left_logo right_logo output_path : string) (scale_factor : Z)
    (v : video) :
  probe fs background = Ok v ->
  (path_exists fs left_logo = false ->
     overlay_logos interp fs background left_logo right_logo output_path scale_factor
       = (Raise (FileNotFoundError ("Logo image '" ++ left_logo ++ "' not found")), fs)) /\
  (path_exists fs right_logo = false ->
     is_ok (load_and_resize_logo interp fs left_logo (v_width v) (v_height v) scale_factor)
       = true ->
     overlay_logos interp fs background left_logo right_logo output_path scale_factor
       = (Raise (FileNotFoundError ("Logo image '" ++ right_logo ++ "' not found")), fs)).
Proof.
  intros Hv. split.
  - intros Hl. apply overlay_logos_load_failure.
    unfold load_inputs. rewrite Hv. simpl.
    unfold load_and_resize_logo at 1. by rewrite Hl.
  - intros Hr Hok. apply overlay_logos_load_failure.
    unfold load_inputs. rewrite Hv. simpl.
    destruct (load_and_resize_logo interp fs left_logo _ _ _) as [l1|e];
      [simpl | discriminate].
    unfold load_and_resize_logo. by rewrite Hr.
Qed.

End Failures.

Lemma bad_input_leaves_fs_untouched_witness :
  (path_exists fs_small "bg.mp4" = false \/ VideoCapture fs_small "bg.mp4" = None \/
   path_exists fs_small "missing.png" = false \/ imread fs_small "missing.png" = None \/
   path_exists fs_small "right.png" = false \/ imread fs_small "right.png" = None \/
   4 = 0) /\
  exists e,
    overlay_logos nearest fs_small "bg.mp4" "missing.png" "right.png" "out/old.mp4" 4
      = (Raise e, fs_small).
Proof.
  assert (H : path_exists fs_small "missing.png" = false) by (vm_compute; reflexivity).
  split; [auto |].
  apply (bad_input_leaves_fs_untouched nearest fs_small
           "bg.mp4" "missing.png" "right.png" "out/old.mp4" 4).
  auto.
Defined.

Lemma first_missing_input_is_reported_witness :
  probe fs_small "bg.mp4" = Ok (small_video [solid 8 16 3 0; solid 8 16 3 1]) /\
  (path_exists fs_small "left.png" = false ->
     overlay_logos nearest fs_small "bg.mp4" "left.png" "missing.png" "out/old.mp4" 4
       = (Raise (FileNotFoundError ("Logo image '" ++ "left.png" ++ "' not found")),
          fs_small)) /\
  (path_exists fs_small "missing.png" = false ->
     is_ok (load_and_resize_logo nearest fs_small "left.png" 16 8 4) = true ->
     overlay_logos nearest fs_small "bg.mp4" "left.png" "missing.png" "out/old.mp4" 4
       = (Raise (FileNotFoundError ("Logo image '" ++ "missing.png" ++ "' not found")),
          fs_small)).
Proof.
  assert (H : probe fs_small "bg.mp4" = Ok (small_video [solid 8 16 3 0; solid 8 16 3 1]))
    by (vm_compute; reflexivity).
  split; [exact H |].
  exact (first_missing_input_is_reported nearest fs_small
           "bg.mp4" "left.png" "missing.png" "out/old.mp4" 4 _ H).
Defined.

(** ** The frame loop *)

(** The loop appends the rendered frames one by one, in the order in which
    they were decoded, and stops at the first frame that fails. *)
Lemma process_frames_appends (fs : gmap string node) (frames : list frame)
    (logo1 : Mat) (l1w l1h : Z) (logo2 : Mat) (l2w l2h : Z)
    (writer : string) (fw fh : Z) :
  process_frames fs frames logo1 l1w l1h logo2 l2w l2h writer fw fh =
    let '(outs, r) := render_all (render logo1 l1w l1h logo2 l2w l2h fw fh) frames in
    (r, foldl (fun fs' rgb => append_data fs' writer rgb) fs outs).
Proof.
  revert fs. induction frames as [|f rest IH]; intros fs; [reflexivity |].
  simpl. unfold render at 1.
  destruct (composite f logo1 l1w l1h logo2 l2w l2h fw fh) as [f'|e]; [simpl | reflexivity].
  destruct (cvtColor_BGR2RGB f') as [rgb|e]; [| reflexivity].
  rewrite IH.
  by destruct (render_all _ rest) as [outs r].
Qed.


Lemma foldl_append_data (fs : gmap string node) (writer : string)
    (w : written) (outs : list frame) :
  fs !! writer = Some (File (Output w)) ->
  foldl (fun fs' rgb => append_data fs' writer rgb) fs outs =
    <[writer := File (Output {| w_fps := w_fps w; w_frames := w_frames w ++ outs;
                                 w_closed := w_closed w |})]> fs.
Proof.
  revert fs w. induction outs as [|rgb outs IH]; intros fs w Hw.
  - simpl. rewrite app_nil_r. destruct w. simpl. by rewrite insert_id.
  - simpl. unfold append_data at 2.
    erewrite IH.
    2: { rewrite lookup_alter_eq, Hw. reflexivity. }
    simpl. rewrite <- app_assoc. simpl.
    apply map_eq. intros k. destruct (decide (writer = k)) as [->|Hne].
    + by rewrite !lookup_insert_eq.
    + rewrite !lookup_insert_ne by done. by rewrite lookup_alter_ne.
Qed.

(** ** Paths *)

Lemma upto_last_slash_length (s : string) :
  (String.length (upto_last_slash s) <= String.length s)%nat.
Proof.
  induction s as [|c s IH]; simpl; [lia |].
  destruct (upto_last_slash s); [destruct (is_slash c) |]; simpl in *; lia.
Qed.

Lemma upto_last_slash_ends (s : string) :
  upto_last_slash s = EmptyString \/ ends_slash (upto_last_slash s) = true.
Proof.
  induction s as [|c s IH]; simpl; [by left |].
  destruct (upto_last_slash s) as [|c' h] eqn:E.
  - destruct (is_slash c) eqn:Ec; [right | by left]. simpl. exact Ec.
  - right. destruct IH as [IH|IH]; [discriminate |]. exact IH.
Qed.

Lemma rstrip_slash_length (s : string) :
  (String.length (rstrip_slash s) <= String.length s)%nat.
Proof.
  induction s as [|c s IH]; simpl; [lia |].
  destruct (rstrip_slash s); [destruct (is_slash c) |]; simpl in *; lia.
Qed.

Lemma rstrip_slash_shorter (s : string) :
  ends_slash s = true -> (String.length (rstrip_slash s) < String.length s)%nat.
Proof.
  induction s as [|c s IH]; [discriminate |].
  simpl. destruct s as [|c' s'].
  - intros ->. simpl. lia.
  - intros H. specialize (IH H).
    destruct (rstrip_slash (String c' s')); [destruct (is_slash c) |];
      simpl in *; lia.
Qed.

(** Only the empty path and the root are their own [dirname]; any other path
    has a strictly shorter one. *)
Lemma dirname_shorter (p : string) :
  all_slash p = false ->
  (String.length (dirname p) < String.length p)%nat.
Proof.
  intros Hp. unfold dirname.
  pose proof (upto_last_slash_length p) as Hlen.
  destruct (all_slash (upto_last_slash p)) eqn:Ea.
  - destruct (Nat.eq_dec (String.length (upto_last_slash p)) (String.length p))
      as [E|E]; [| lia].
    exfalso. revert Hp Ea E. clear. induction p as [|c p IH]; [discriminate |].
    simpl. intros Hp Ea E.
    pose proof (upto_last_slash_length p) as Hlen.
    destruct (upto_last_slash p) as [|c' h] eqn:Eu.
    + destruct (is_slash c) eqn:Ec; simpl in E; [| lia].
      destruct p; simpl in *; [discriminate | lia].
    + simpl in Ea, E. apply andb_true_iff in Ea as [Ec Ea].
      rewrite Ec in Hp. simpl in Hp. apply IH; [exact Hp | exact Ea | simpl; lia].
  - destruct (upto_last_slash_ends p) as [E|E].
    + rewrite E in Ea. discriminate.
    + pose proof (rstrip_slash_shorter _ E). lia.
Qed.

Lemma dirname_neq (p : string) : all_slash p = false -> dirname p <> p.
Proof. intros Hp E. pose proof (dirname_shorter p Hp). rewrite E in H. lia. Qed.

Lemma all_slash_upto (p : string) : all_slash p = true -> upto_last_slash p = p.
Proof.
  induction p as [|c p IH]; [reflexivity |].
  simpl. intros [Hc Hp]%andb_true_iff. rewrite (IH Hp).
  destruct p; [| reflexivity].
  rewrite Hc. unfold is_slash in Hc. apply Ascii.eqb_eq in Hc. by subst.
Qed.

(** The root is its own [dirname]. *)
Lemma all_slash_dirname (p : string) : all_slash p = true -> dirname p = p.
Proof.
  intros Hp. unfold dirname. rewrite (all_slash_upto p Hp). by rewrite Hp.
Qed.

(** ** The file system *)

Lemma stat_insert_ne (fs : gmap string node) (p q : string) (n : node) :
  p <> q -> stat (<[p := n]> fs) q = stat fs q.
Proof. intros Hne. unfold stat. by rewrite lookup_insert_ne. Qed.

Lemma stat_insert_eq (fs : gmap string node) (p : string) (n : node) :
  all_slash p = false -> stat (<[p := n]> fs) p = Some n.
Proof.
  intros Hp. unfold stat. destruct p; [discriminate |]. simpl is_empty. cbv iota.
  rewrite Hp. apply lookup_insert_eq.
Qed.

Lemma stat_delete_ne (fs : gmap string node) (p q : string) :
  p <> q -> stat (delete p fs) q = stat fs q.
Proof. intros Hne. unfold stat. by rewrite lookup_delete_ne. Qed.

Lemma stat_delete_eq (fs : gmap string node) (p : string) :
  all_slash p = false -> stat (delete p fs) p = None.
Proof.
  intros Hp. unfold stat. destruct p; [reflexivity |]. simpl is_empty. cbv iota.
  rewrite Hp. apply lookup_delete_eq.
Qed.

Lemma stat_alter_ne (fs : gmap string node) (g : node -> node) (p q : string) :
  p <> q -> stat (alter g p fs) q = stat fs q.
Proof. intros Hne. unfold stat. by rewrite lookup_alter_ne. Qed.

(** A path that does not exist is not the root. *)
Lemma path_exists_false (fs : gmap string node) (p : string) :
  path_exists fs p = false -> is_empty p = false -> all_slash p = false.
Proof.
  unfold path_exists, stat. intros H He. rewrite He in H.
  by destruct (all_slash p).
Qed.

(** A regular file is not the root. *)
Lemma stat_File (fs : gmap string node) (p : string) (c : content) :
  stat fs p = Some (File c) -> all_slash p = false.
Proof.
  unfold stat. destruct (is_empty p) eqn:He; [discriminate |].
  by destruct (all_slash p).
Qed.

Lemma grown_refl (fs : gmap string node) : grown fs fs.
Proof. intros q. destruct (stat fs q); auto. Qed.

Lemma grown_trans (fs1 fs2 fs3 : gmap string node) :
  grown fs1 fs2 -> grown fs2 fs3 -> grown fs1 fs3.
Proof.
  intros H12 H23 q. specialize (H12 q). specialize (H23 q).
  destruct (stat fs1 q) as [n|].
  - by rewrite H12 in H23.
  - destruct H12 as [E|E]; rewrite E in H23; auto.
Qed.

Lemma mkdir_Ok_inv (fs fs' : gmap string node) (p : string) :
  mkdir fs p = Ok fs' ->
  fs' = <[p := Dir]> fs /\ path_exists fs p = false /\ all_slash p = false /\
  (is_empty (dirname p) = true \/ stat fs (dirname p) = Some Dir).
Proof.
  unfold mkdir. destruct (is_empty p) eqn:He; [discriminate |].
  destruct (path_exists fs p) eqn:Hp; [discriminate |].
  pose proof (path_exists_false fs p Hp He) as Hs.
  destruct (is_empty (dirname p)) eqn:Hd.
  - intros [= <-]. auto.
  - destruct (stat fs (dirname p)) as [[|c]|] eqn:Hst; try discriminate.
    intros [= <-]. auto.
Qed.

Lemma mkdir_grown (fs fs' : gmap string node) (p : string) :
  mkdir fs p = Ok fs' -> grown fs fs' /\ stat fs' p = Some Dir.
Proof.
  intros (-> & Hp & Hs & _)%mkdir_Ok_inv. split.
  - intros q. destruct (decide (p = q)) as [<-|Hne].
    + unfold path_exists in Hp. destruct (stat fs p); [discriminate |].
      right. by apply stat_insert_eq.
    + rewrite stat_insert_ne by exact Hne. destruct (stat fs q); auto.
  - by apply stat_insert_eq.
Qed.

Lemma lift_mkdir_grown (fs fs' : gmap string node) (p : string) (r : result unit) :
  lift_mkdir fs p = (r, fs') ->
  grown fs fs' /\ (r = Ok tt -> stat fs' p = Some Dir).
Proof.
  unfold lift_mkdir. destruct (mkdir fs p) as [fs1|e] eqn:E.
  - intros [= <- <-]. apply mkdir_grown in E as [? ?]. auto.
  - intros [= <- <-]. split; [apply grown_refl | discriminate].
Qed.

(** [os.makedirs] never removes or changes anything, adds only directories,
    and on success the directory asked for is there. *)
Lemma makedirs_rec_grown (fuel : nat) (fs fs' : gmap string node) (name : string)
    (r : result unit) :
  makedirs_rec fuel fs name = (r, fs') ->
  grown fs fs' /\ (r = Ok tt -> stat fs' name = Some Dir).
Proof.
  revert fs fs' name r. induction fuel as [|fuel IH]; intros fs fs' name r; simpl.
  - apply lift_mkdir_grown.
  - destruct (negb (is_empty (dirname name)) && negb (path_exists fs (dirname name))).
    + destruct (makedirs_rec fuel fs (dirname name)) as [r1 fs1] eqn:E1.
      apply IH in E1 as [G1 _].
      assert (Hl : lift_mkdir fs1 name = (r, fs') ->
                   grown fs fs' /\ (r = Ok tt -> stat fs' name = Some Dir)).
      { intros [G2 H2]%lift_mkdir_grown. split; [by eapply grown_trans | exact H2]. }
      destruct r1 as [u|e]; [exact Hl |].
      destruct e; try exact Hl; intros [= <- <-]; (split; [exact G1 | discriminate]).
    + apply lift_mkdir_grown.
Qed.

Lemma makedirs_grown (fs fs' : gmap string node) (name : string) (r : result unit) :
  makedirs fs name = (r, fs') ->
  grown fs fs' /\ (r = Ok tt -> stat fs' name = Some Dir).
Proof. apply makedirs_rec_grown. Qed.

Lemma remove_Ok_inv (fs fs' : gmap string node) (p : string) :
  remove fs p = Ok fs' ->
  fs' = delete p fs /\ all_slash p = false /\ exists c, stat fs p = Some (File c).
Proof.
  unfold remove. destruct (stat fs p) as [[|c]|] eqn:E; try discriminate.
  intros [= <-]. split; [reflexivity |]. split; [by eapply stat_File | eauto].
Qed.

Lemma string_length_zero (s : string) : String.length s = 0%nat -> s = EmptyString.
Proof. by destruct s. Qed.

Lemma all_slash_exists (fs : gmap string node) (p : string) :
  is_empty p = false -> all_slash p = true -> path_exists fs p = true.
Proof. intros He Hs. unfold path_exists, stat. by rewrite He, Hs. Qed.

(** The recursion of [os.makedirs] ends: each call is on a strictly shorter
    name, so the length of the name is enough fuel, and more changes nothing. *)
Lemma makedirs_rec_fuel (n m : nat) (fs : gmap string node) (name : string) :
  (String.length name <= n)%nat -> (String.length name <= m)%nat ->
  makedirs_rec n fs name = makedirs_rec m fs name.
Proof.
  revert m fs name. induction n as [|n IH]; intros m fs name Hn Hm.
  - assert (name = EmptyString) as -> by (apply string_length_zero; lia).
    destruct m; reflexivity.
  - destruct m as [|m].
    + assert (name = EmptyString) as -> by (apply string_length_zero; lia).
      reflexivity.
    + simpl.
      destruct (is_empty (dirname name)) eqn:He; [reflexivity |].
      destruct (path_exists fs (dirname name)) eqn:Hp; [reflexivity |]. simpl.
      assert (Hs : all_slash name = false).
      { destruct (all_slash name) eqn:Hs; [| reflexivity].
        rewrite (all_slash_dirname name Hs) in He, Hp.
        by rewrite (all_slash_exists fs name He Hs) in Hp. }
      pose proof (dirname_shorter name Hs).
      rewrite (IH m fs (dirname name)) by lia. reflexivity.
Qed.

Lemma makedirs_more_fuel (n : nat) (fs : gmap string node) (name : string) :
  (String.length name <= n)%nat -> makedirs_rec n fs name = makedirs fs name.
Proof. intros Hn. unfold makedirs. by apply makedirs_rec_fuel. Qed.

(** ** Preparing the output path *)

(** After the preparation nothing is at the output path, its directory
    exists, and no other path has lost or changed what it held. *)
Lemma prepare_output_post (fs fs' : gmap string node) (output_path : string) :
  prepare_output fs output_path = (Ok tt, fs') ->
  path_exists fs' output_path = false /\
  (is_empty (dirname output_path) = true \/
   path_exists fs' (dirname output_path) = true) /\
  forall q, q <> output_path ->
    match stat fs q with
    | Some n => stat fs' q = Some n
    | None => stat fs' q = None \/ stat fs' q = Some Dir
    end.
Proof.
  unfold prepare_output.
  set (d := dirname output_path).
  destruct (if negb (is_empty d) && negb (path_exists fs d)
            then makedirs fs d else (Ok tt, fs)) as [r fs1] eqn:E1.
  assert (H1 : grown fs fs1 /\
               (r = Ok tt -> is_empty d = true \/ path_exists fs1 d = true)).
  { destruct (is_empty d) eqn:He; simpl in E1.
    - injection E1 as <- <-. split; [apply grown_refl | auto].
    - destruct (path_exists fs d) eqn:Hp; simpl in E1.
      + injection E1 as <- <-. split; [apply grown_refl | auto].
      + apply makedirs_grown in E1 as [G H]. split; [exact G |].
        intros Hr. right. unfold path_exists. by rewrite (H Hr). }
  destruct H1 as [G Hd]. destruct r as [[]|e]; [| discriminate].
  specialize (Hd eq_refl).
  destruct (path_exists fs1 output_path) eqn:Ho.
  - destruct (remove fs1 output_path) as [fs2|e] eqn:Er; [| discriminate].
    intros [= <-]. apply remove_Ok_inv in Er as (-> & Hs & c & Hc).
    split; [| split].
    + unfold path_exists. by rewrite stat_delete_eq.
    + destruct Hd as [Hd|Hd]; [by left | right].
      unfold path_exists. rewrite stat_delete_ne; [exact Hd |].
      intros E. symmetry in E. by apply dirname_neq in E.
    + intros q Hq. rewrite stat_delete_ne by congruence. apply G.
  - intros [= <-]. split; [exact Ho |]. split; [exact Hd |].
    intros q _. apply G.
Qed.

(** X14: When the directory is there and nothing is at the output path, the
    preparation does nothing; in particular preparing twice is preparing
    once. *)
Theorem prepare_output_idempotent (fs fs' : gmap string node) (output_path : string) :
  prepare_output fs output_path = (Ok tt, fs') ->
  prepare_output fs' output_path = (Ok tt, fs').
Proof.
  intros (Ho & Hd & _)%prepare_output_post.
  unfold prepare_output.
  replace (negb (is_empty (dirname output_path)) &&
           negb (path_exists fs' (dirname output_path))) with false.
  2: { destruct Hd as [-> | ->]; [reflexivity | by rewrite andb_false_r]. }
  by rewrite Ho.
Qed.

(** The preparation fails only if the directory cannot be made or the output
    path is a directory; a stale file is deleted, a missing one is skipped. *)
Lemma prepare_output_dir_ready (fs : gmap string node) (output_path : string) :
  is_empty (dirname output_path) = true \/ path_exists fs (dirname output_path) = true ->
  prepare_output fs output_path =
    match stat fs output_path with
    | None => (Ok tt, fs)
    | Some (File _) => (Ok tt, delete output_path fs)
    | Some Dir => (Raise (IsADirectoryError output_path), fs)
    end.
Proof.
  intros Hd. unfold prepare_output.
  replace (negb (is_empty (dirname output_path)) &&
           negb (path_exists fs (dirname output_path))) with false.
  2: { destruct Hd as [-> | ->]; [reflexivity | by rewrite andb_false_r]. }
  unfold path_exists, remove. by destruct (stat fs output_path) as [[|c]|].
Qed.

(** A missing directory directly under the working directory is created
    before the output path is looked at. *)
Lemma prepare_output_mkdir (fs : gmap string node) (output_path : string) :
  is_empty (dirname output_path) = false ->
  path_exists fs (dirname output_path) = false ->
  is_empty (dirname (dirname output_path)) = true ->
  prepare_output fs output_path =
    match stat fs output_path with
    | None => (Ok tt, <[dirname output_path := Dir]> fs)
    | Some (File _) => (Ok tt, delete output_path (<[dirname output_path := Dir]> fs))
    | Some Dir => (Raise (IsADirectoryError output_path), <[dirname output_path := Dir]> fs)
    end.
Proof.
  intros He Hp Hdd. unfold prepare_output. rewrite He, Hp. simpl.
  assert (Hm : makedirs fs (dirname output_path)
               = (Ok tt, <[dirname output_path := Dir]> fs)).
  { unfold makedirs.
    destruct (String.length (dirname output_path)) eqn:El.
    - apply string_length_zero in El. rewrite El in He. discriminate.
    - simpl. rewrite Hdd. simpl. unfold lift_mkdir, mkdir. by rewrite He, Hp, Hdd. }
  rewrite Hm.
  assert (Hs : all_slash output_path = false).
  { destruct (all_slash output_path) eqn:Hs; [| reflexivity].
    rewrite (all_slash_dirname _ Hs) in He, Hp.
    by rewrite (all_slash_exists fs _ He Hs) in Hp. }
  assert (Hne : dirname output_path <> output_path) by (by apply dirname_neq).
  unfold path_exists, remove. rewrite stat_insert_ne by exact Hne.
  by destruct (stat fs output_path) as [[|c]|].
Qed.

Lemma prepare_output_stale_eq :
  prepare_output fs_small "out/old.mp4" = (Ok tt, delete "out/old.mp4" fs_small).
Proof.
  rewrite prepare_output_dir_ready by (right; vm_compute; reflexivity).
  by replace (stat fs_small "out/old.mp4") with (Some (File Undecodable))
    by (vm_compute; reflexivity).
Qed.




Lemma prepare_output_idempotent_witness :
  prepare_output fs_small "out/old.mp4" = (Ok tt, delete "out/old.mp4" fs_small) /\
  prepare_output (delete "out/old.mp4" fs_small) "out/old.mp4"
    = (Ok tt, delete "out/old.mp4" fs_small).
Proof.
  split; [exact prepare_output_stale_eq |].
  exact (prepare_output_idempotent fs_small _ "out/old.mp4" prepare_output_stale_eq).
Defined.

(** X12: The preparation fails only if the directory cannot be made or the output
    path is a directory; a stale file is deleted, a missing one is skipped. *)
Theorem prepare_output_with_directory (fs : gmap string node) (output_path : string) :
  is_empty (dirname output_path) = true \/ path_exists fs (dirname output_path) = true ->
  prepare_output fs output_path =
    match stat fs output_path with
    | None => (Ok tt, fs)
    | Some (File _) => (Ok tt, delete output_path fs)
    | Some Dir => (Raise (IsADirectoryError output_path), fs)
    end.
Proof. intros. eapply prepare_output_dir_ready; eassumption. Qed.

Lemma prepare_output_with_directory_witness :
  (is_empty (dirname "out/old.mp4") = true \/
   path_exists fs_small (dirname "out/old.mp4") = true) /\
  prepare_output fs_small "out/old.mp4" =
    match stat fs_small "out/old.mp4" with
    | None => (Ok tt, fs_small)
    | Some (File _) => (Ok tt, delete "out/old.mp4" fs_small)
    | Some Dir => (Raise (IsADirectoryError "out/old.mp4"), fs_small)
    end.
Proof.
  assert (H : is_empty (dirname "out/old.mp4") = true \/
              path_exists fs_small (dirname "out/old.mp4") = true)
    by (right; vm_compute; reflexivity).
  split; [exact H |].
  exact (prepare_output_with_directory fs_small "out/old.mp4" H).
Defined.

(** X13: A missing directory directly under the working directory is created
    before the output path is looked at. *)
Theorem prepare_output_makes_directory (fs : gmap string node) (output_path : string) :
  is_empty (dirname output_path) = false ->
  path_exists fs (dirname output_path) = false ->
  is_empty (dirname (dirname output_path)) = true ->
  prepare_output fs output_path =
    match stat fs output_path with
    | None => (Ok tt, <[dirname output_path := Dir]> fs)
    | Some (File _) => (Ok tt, delete output_path (<[dirname output_path := Dir]> fs))
    | Some Dir => (Raise (IsADirectoryError output_path), <[dirname output_path := Dir]> fs)
    end.
Proof. intros. eapply prepare_output_mkdir; eassumption. Qed.

Lemma prepare_output_makes_directory_witness :
  (is_empty (dirname "output/a.mp4") = false /\
   path_exists fs_small (dirname "output/a.mp4") = false /\
   is_empty (dirname (dirname "output/a.mp4")) = true) /\
  prepare_output fs_small "output/a.mp4" =
    match stat fs_small "output/a.mp4" with
    | None => (Ok tt, <[dirname "output/a.mp4" := Dir]> fs_small)
    | Some (File _) =>
        (Ok tt, delete "output/a.mp4" (<[dirname "output/a.mp4" := Dir]> fs_small))
    | Some Dir =>
        (Raise (IsADirectoryError "output/a.mp4"),
         <[dirname "output/a.mp4" := Dir]> fs_small)
    end.
Proof.
  assert (H1 : is_empty (dirname "output/a.mp4") = false) by reflexivity.
  assert (H2 : path_exists fs_small (dirname "output/a.mp4") = false)
    by (vm_compute; reflexivity).
  assert (H3 : is_empty (dirname (dirname "output/a.mp4")) = true) by reflexivity.
  split; [auto |].
  exact (prepare_output_makes_directory fs_small "output/a.mp4" H1 H2 H3).
Defined.

(** ** Whole runs *)

Section Runs.

Variable interp : (nat -> nat -> sample) -> Z -> Z -> Z -> Z -> nat -> nat -> sample.

Lemma load_inputs_Ok_inv (fs : gmap string node) (background left_logo right_logo : string)
    (scale_factor : Z) (v : video) (l1 l2 : Mat * Z * Z) :
  load_inputs interp fs background left_logo right_logo scale_factor = Ok (v, l1, l2) ->
  VideoCapture fs background = Some v /\
  load_and_resize_logo interp fs left_logo (v_width v) (v_height v) scale_factor = Ok l1 /\
  load_and_resize_logo interp fs right_logo (v_width v) (v_height v) scale_factor = Ok l2.
Proof.
  unfold load_inputs. intros (v' & Hv & E)%bind_Ok_inv.
  apply bind_Ok_inv in E as (l1' & H1 & E).
  apply bind_Ok_inv in E as (l2' & H2 & [= -> -> ->]).
  apply probe_Ok_inv in Hv as [_ Hv]. auto.
Qed.

Lemma get_writer_prepared (fs : gmap string node) (output_path : string) (fps : float) :
  is_empty (dirname output_path) = true \/
  path_exists fs (dirname output_path) = true ->
  get_writer fs output_path fps =
    Ok (<[output_path := File (Output {| w_fps := fps; w_frames := [];
                                          w_closed := false |})]> fs).
Proof.
  intros Hd. unfold get_writer.
  replace (negb (is_empty (dirname output_path)) &&
           negb (path_exists fs (dirname output_path))) with false; [reflexivity |].
  destruct Hd as [-> | ->]; [reflexivity | by rewrite andb_false_r].
Qed.

Lemma VideoCapture_stat (fs fs' : gmap string node) (p : string) :
  stat fs' p = stat fs p -> VideoCapture fs' p = VideoCapture fs p.
Proof. unfold VideoCapture. by intros ->. Qed.

(** A whole run whose inputs load and whose output path can be prepared, on
    an output path other than the background: the output holds, at the
    frame rate of the background, the rendered frames in decoding order up to
    the first frame that fails; the run returns normally and the writer is
    closed if no frame fails; otherwise the run raises the error of that frame
    and leaves the partial output behind, not closed. *)
Lemma overlay_logos_run_eq (fs fs1 : gmap string node)
    (background left_logo right_logo output_path : string) (scale_factor : Z)
    (v : video) (logo1 : Mat) (w1 h1 : Z) (logo2 : Mat) (w2 h2 : Z) :
  load_inputs interp fs background left_logo right_logo scale_factor
    = Ok (v, (logo1, w1, h1), (logo2, w2, h2)) ->
  prepare_output fs output_path = (Ok tt, fs1) ->
  background <> output_path ->
  overlay_logos interp fs background left_logo right_logo output_path scale_factor =
    let '(outs, res) :=
      render_all (render logo1 w1 h1 logo2 w2 h2 (v_width v) (v_height v)) (v_frames v) in
    (res, <[output_path := File (Output {| w_fps := v_fps v; w_frames := outs;
                                            w_closed := is_ok res |})]> fs1).
Proof.
  intros Hload Hprep Hne. unfold overlay_logos. rewrite Hload, Hprep.
  apply load_inputs_Ok_inv in Hload as (Hv & _ & _).
  apply prepare_output_post in Hprep as (Ho & Hd & Hkeep).
  unfold write_video. rewrite (get_writer_prepared fs1 output_path (v_fps v) Hd).
  set (w0 := {| w_fps := v_fps v; w_frames := []; w_closed := false |}).
  unfold process_video.
  assert (Hv2 : VideoCapture (<[output_path := File (Output w0)]> fs1) background
                = Some v).
  { rewrite <- Hv. apply VideoCapture_stat.
    rewrite stat_insert_ne by congruence.
    specialize (Hkeep background Hne).
    unfold VideoCapture in Hv. destruct (stat fs background); [exact Hkeep | discriminate]. }
  rewrite Hv2, process_frames_appends.
  destruct (render_all _ (v_frames v)) as [outs res].
  rewrite (foldl_append_data _ output_path w0 outs) by apply lookup_insert_eq.
  rewrite insert_insert_eq. simpl.
  destruct res as [[]|e]; [| reflexivity].
  unfold writer_close. by rewrite alter_insert_eq.
Qed.

End Runs.



Section MoreRuns.

Variable interp : (nat -> nat -> sample) -> Z -> Z -> Z -> Z -> nat -> nat -> sample.






End MoreRuns.







(** ** Running twice *)

Section Idempotence.

Variable interp : (nat -> nat -> sample) -> Z -> Z -> Z -> Z -> nat -> nat -> sample.






End Idempotence.


(** ** What the loader returns *)

Section LoaderResult.

Variable interp : (nat -> nat -> sample) -> Z -> Z -> Z -> Z -> nat -> nat -> sample.

Lemma Forall_tabulate {A : Type} (P : A -> Prop) (n : nat) (f : nat -> A) :
  (forall i, P (f i)) -> Forall P (tabulate n f).
Proof.
  intros H. unfold tabulate. apply Forall_fmap. apply List.Forall_forall.
  intros i _. apply H.
Qed.

Lemma cv2_resize_layout (image resized : Mat) (w h : Z) :
  cv2_resize interp image w h = Ok resized -> same_layout h w image resized.
Proof.
  unfold cv2_resize.
  destruct (Z.leb_spec w 0); [discriminate |].
  destruct (Z.leb_spec h 0); [discriminate |]. simpl.
  destruct image as [d|d]; intros [= <-]; simpl.
  - split.
    + unfold rows, zlen. rewrite tabulate_length. lia.
    + apply Forall_tabulate. intros i. unfold zlen. rewrite tabulate_length. lia.
  - split.
    + unfold rows, zlen. rewrite tabulate_length. lia.
    + apply Forall_tabulate. intros i. split.
      * unfold zlen. rewrite tabulate_length. lia.
      * apply Forall_tabulate. intros j. unfold zlen, chans, zlen.
        rewrite tabulate_length. lia.
Qed.

(** Whenever the loader returns, both sizes are positive, the scale factor
    is not zero, and the array is a well-formed [height x width] array of the
    kind and with the channels of the decoded logo - an alpha channel, if
    there is one, is still there. *)
Lemma loader_result_inv (fs : gmap string node) (logo_path : string)
    (fw fh sf : Z) (resized : Mat) (w h : Z) :
  load_and_resize_logo interp fs logo_path fw fh sf = Ok (resized, w, h) ->
  0 < w /\ 0 < h /\ sf <> 0 /\
  exists logo,
    imread fs logo_path = Some logo /\ same_layout h w logo resized /\
    (has_alpha logo -> has_alpha resized).
Proof.
  intros (logo & _ & Hread & Hsf & H)%load_and_resize_logo_inv.
  apply resize_with_aspect_ratio_inv in H as (r & _ & Hres & _).
  pose proof (cv2_resize_shape interp _ _ _ _ Hres) as (Hw & Hh & _ & _).
  pose proof (cv2_resize_layout _ _ _ _ Hres) as Hlay.
  repeat split; try assumption.
  exists logo. repeat split; try assumption.
  destruct logo as [d|d], resized as [d'|d']; simpl in *; try contradiction.
  intros Ha. rewrite Ha in Hlay. by apply (rect3_chans h w 4).
Qed.


End LoaderResult.

(** X1: Whenever the loader returns, both sizes are positive, the scale factor
    is not zero, and the array is a well-formed [height x width] array of the
    kind and with the channels of the decoded logo - an alpha channel, if
    there is one, is still there. *)
Theorem loader_result_well_formed
    (interp : (nat -> nat -> sample) -> Z -> Z -> Z -> Z -> nat -> nat -> sample) (fs : gmap string node) (logo_path : string)
    (fw fh sf : Z) (resized : Mat) (w h : Z) :
  load_and_resize_logo interp fs logo_path fw fh sf = Ok (resized, w, h) ->
  0 < w /\ 0 < h /\ sf <> 0 /\
  exists logo,
    imread fs logo_path = Some logo /\ same_layout h w logo resized /\
    (has_alpha logo -> has_alpha resized).
Proof. intros. eapply loader_result_inv; eassumption. Qed.

Lemma loader_result_well_formed_witness :
  load_and_resize_logo nearest fs_small "alpha.png" 16 8 4 = Ok (alpha_logo0, 2, 2) /\
  0 < 2 /\ 0 < 2 /\ 4 <> 0 /\
  exists logo,
    imread fs_small "alpha.png" = Some logo /\ same_layout 2 2 logo alpha_logo0 /\
    (has_alpha logo -> has_alpha alpha_logo0).
Proof.
  assert (H : load_and_resize_logo nearest fs_small "alpha.png" 16 8 4
              = Ok (alpha_logo0, 2, 2)) by (vm_compute; reflexivity).
  split; [exact H |].
  exact (loader_result_well_formed nearest fs_small "alpha.png" 16 8 4 _ _ _ H).
Defined.



(** ** The command line: [main] (lines 129-141) *)



(** ** The batch driver: [example.py] *)

Lemma batch_app
    (interp : (nat -> nat -> sample) -> Z -> Z -> Z -> Z -> nat -> nat -> sample)
    (fs : gmap string node) (script_root : string) (l1 l2 : list string) :
  batch interp fs script_root (l1 ++ l2) =
    match batch interp fs script_root l1 with
    | (Ok _, fs1) => batch interp fs1 script_root l2
    | (Raise e, fs1) => (Raise e, fs1)
    end.
Proof.
  revert fs. induction l1 as [|p l1 IH]; intros fs; [reflexivity |].
  simpl. destruct (isfile fs p); [| apply IH].
  destruct (overlay_logos interp fs _ _ p (job_output p) 4) as [[[]|e] fs']; [apply IH | reflexivity].
Qed.

(** X21: One failing partner ends the batch: the partners listed after it are not
    processed, whatever they are, and the driver ends with that partner's
    error and the file system that job left. *)
Theorem batch_stops_at_first_failure
    (interp : (nat -> nat -> sample) -> Z -> Z -> Z -> Z -> nat -> nat -> sample)
    (fs fs1 fs2 : gmap string node) (script_root filepath : string)
    (done later : list string) (e : exn) :
  batch interp fs script_root done = (Ok tt, fs1) ->
  isfile fs1 filepath = true ->
  overlay_logos interp fs1
    (script_root ++ "/resources/background.mp4")
    (script_root ++ "/resources/zkverse.png")
    filepath (job_output filepath) 4 = (Raise e, fs2) ->
  batch interp fs script_root (done ++ filepath :: later) = (Raise e, fs2).
Proof.
  intros Hdone Hfile Hjob. rewrite batch_app, Hdone. simpl.
  by rewrite Hfile, Hjob.
Qed.

Lemma upto_last_slash_basename (p : string) :
  upto_last_slash (basename p) = EmptyString.
Proof.
  induction p as [|c p IH]; [reflexivity |]. simpl.
  destruct (upto_last_slash p) eqn:Eu; simpl; [| exact IH].
  destruct (is_slash c) eqn:Ec; [exact Eu |]. simpl. by rewrite Eu, Ec.
Qed.

Lemma split_last_dot_app (s a b : string) :
  split_last_dot s = Some (a, b) -> s = a ++ b.
Proof.
  revert a b. induction s as [|c s IH]; intros a b; [discriminate |]. simpl.
  destruct (split_last_dot s) as [[a' b']|].
  - intros [= <- <-]. simpl. by rewrite (IH a' b' eq_refl).
  - destruct (is_dot c); [| discriminate]. by intros [= <- <-].
Qed.

Lemma upto_last_slash_app_l (a b : string) :
  upto_last_slash (a ++ b) = EmptyString -> upto_last_slash a = EmptyString.
Proof.
  induction a as [|c a IH]; [reflexivity |]. simpl.
  destruct (upto_last_slash (a ++ b)) eqn:E; [| discriminate].
  rewrite (IH eq_refl). by destruct (is_slash c).
Qed.

Lemma upto_last_slash_app (a b : string) :
  upto_last_slash a = EmptyString -> upto_last_slash b = EmptyString ->
  upto_last_slash (a ++ b) = EmptyString.
Proof.
  intros Ha Hb. induction a as [|c a IH]; [exact Hb |]. simpl in *.
  destruct (upto_last_slash a); [| discriminate].
  rewrite (IH eq_refl). by destruct (is_slash c).
Qed.

Lemma upto_last_slash_splitext (name : string) :
  upto_last_slash name = EmptyString ->
  upto_last_slash (fst (splitext name)) = EmptyString.
Proof.
  intros H. unfold splitext.
  destruct (split_last_dot name) as [[a b]|] eqn:E; [| exact H].
  destruct (all_dots a); [exact H |]. simpl.
  apply split_last_dot_app in E. subst name. by apply upto_last_slash_app_l in H.
Qed.

Lemma upto_last_slash_cons (c : ascii) (s : string) :
  upto_last_slash (String c s) =
    match upto_last_slash s with
    | EmptyString => if is_slash c then String c EmptyString else EmptyString
    | h => String c h
    end.
Proof. reflexivity. Qed.

Lemma basename_cons (c : ascii) (p : string) :
  basename (String c p) =
    if is_empty (upto_last_slash p) then
      if is_slash c then p else String c p
    else basename p.
Proof. reflexivity. Qed.

Lemma output_prefix (t : string) :
  upto_last_slash t = EmptyString ->
  dirname ("output/" ++ t) = "output" /\ basename ("output/" ++ t) = t.
Proof.
  intros H.
  change ("output/" ++ t) with
    (String "o" (String "u" (String "t" (String "p" (String "u" (String "t"
       (String "/" t))))))).
  split.
  - unfold dirname. rewrite !upto_last_slash_cons, H. reflexivity.
  - rewrite !basename_cons, !upto_last_slash_cons, H. reflexivity.
Qed.

(** X22: Every job writes directly into the directory [output] of the working
    directory, whatever the path of the partner logo, under the base name of
    the logo without its extension. *)
Theorem job_output_in_output_directory (filepath : string) :
  dirname (job_output filepath) = "output" /\
  basename (job_output filepath) = fst (splitext (basename filepath)) ++ ".mp4".
Proof.
  apply output_prefix.
  apply upto_last_slash_app; [| reflexivity].
  apply upto_last_slash_splitext, upto_last_slash_basename.
Qed.

Lemma batch_cons
    (interp : (nat -> nat -> sample) -> Z -> Z -> Z -> Z -> nat -> nat -> sample)
    (fs : gmap string node) (script_root filepath : string) (rest : list string) :
  batch interp fs script_root (filepath :: rest) =
    if isfile fs filepath then
      match overlay_logos interp fs
              (script_root ++ "/resources/background.mp4")
              (script_root ++ "/resources/zkverse.png")
              filepath (job_output filepath) 4 with
      | (Ok _, fs') => batch interp fs' script_root rest
      | (Raise e, fs') => (Raise e, fs')
      end
    else batch interp fs script_root rest.
Proof. reflexivity. Qed.

Lemma job_acme :
  overlay_logos nearest fs_batch "app/resources/background.mp4"
    "app/resources/zkverse.png" "app/resources/partners/acme.png"
    "output/acme.mp4" 4 = (Ok tt, fs_batch_acme).
Proof.
  assert (Hload : load_inputs nearest fs_batch "app/resources/background.mp4"
                    "app/resources/zkverse.png" "app/resources/partners/acme.png" 4
                  = Ok (small_video [frame0; frame1], (left_logo0, 2, 2), (right_logo0, 4, 2)))
    by (vm_compute; reflexivity).
  assert (Hprep : prepare_output fs_batch "output/acme.mp4"
                  = (Ok tt, <["output" := Dir]> fs_batch)).
  { rewrite prepare_output_mkdir;
      [| reflexivity | vm_compute; reflexivity | reflexivity].
    by replace (stat fs_batch "output/acme.mp4") with (@None node)
      by (vm_compute; reflexivity). }
  rewrite (overlay_logos_run_eq nearest fs_batch _ _ _ _ _ _ _ _ _ _ _ _ _ Hload Hprep)
    by discriminate.
  by replace (render_all (render left_logo0 2 2 right_logo0 4 2
                            (v_width (small_video [frame0; frame1]))
                            (v_height (small_video [frame0; frame1])))
                         (v_frames (small_video [frame0; frame1])))
    with ([rgb0; rgb1], Ok tt) by (vm_compute; reflexivity).
Qed.

Lemma batch_done :
  batch nearest fs_batch "app"
    ["app/resources/partners/archive"; "app/resources/partners/acme.png"]
    = (Ok tt, fs_batch_acme).
Proof.
  rewrite batch_cons.
  replace (isfile fs_batch "app/resources/partners/archive") with false
    by (vm_compute; reflexivity).
  rewrite batch_cons.
  replace (isfile fs_batch "app/resources/partners/acme.png") with true
    by (vm_compute; reflexivity).
  change ("app" ++ "/resources/background.mp4") with "app/resources/background.mp4".
  change ("app" ++ "/resources/zkverse.png") with "app/resources/zkverse.png".
  change (job_output "app/resources/partners/acme.png") with "output/acme.mp4".
  by rewrite job_acme.
Qed.

Lemma job_broken :
  overlay_logos nearest fs_batch_acme ("app" ++ "/resources/background.mp4")
    ("app" ++ "/resources/zkverse.png") "app/resources/partners/broken.png"
    (job_output "app/resources/partners/broken.png") 4
    = (Raise (FileNotFoundError
                "Failed to load logo image from 'app/resources/partners/broken.png'."),
       fs_batch_acme).
Proof.
  apply overlay_logos_load_failure. vm_compute. reflexivity.
Qed.

Lemma batch_stops_at_first_failure_witness :
  (batch nearest fs_batch "app"
     ["app/resources/partners/archive"; "app/resources/partners/acme.png"]
     = (Ok tt, fs_batch_acme) /\
   isfile fs_batch_acme "app/resources/partners/broken.png" = true /\
   overlay_logos nearest fs_batch_acme ("app" ++ "/resources/background.mp4")
     ("app" ++ "/resources/zkverse.png") "app/resources/partners/broken.png"
     (job_output "app/resources/partners/broken.png") 4
     = (Raise (FileNotFoundError
                 "Failed to load logo image from 'app/resources/partners/broken.png'."),
        fs_batch_acme)) /\
  batch nearest fs_batch "app"
    (["app/resources/partners/archive"; "app/resources/partners/acme.png"]
     ++ "app/resources/partners/broken.png" :: ["app/resources/partners/zeta.png"])
    = (Raise (FileNotFoundError
                "Failed to load logo image from 'app/resources/partners/broken.png'."),
       fs_batch_acme).
Proof.
  assert (Hfile : isfile fs_batch_acme "app/resources/partners/broken.png" = true)
    by (vm_compute; reflexivity).
  split; [split; [exact batch_done | split; [exact Hfile | exact job_broken]] |].
  exact (batch_stops_at_first_failure nearest fs_batch fs_batch_acme fs_batch_acme
           "app" "app/resources/partners/broken.png" _ _ _
           batch_done Hfile job_broken).
Defined.

(** ** Scale factors that leave no box *)

Section ScaleFactor.

Variable interp : (nat -> nat -> sample) -> Z -> Z -> Z -> Z -> nat -> nat -> sample.

(** X3: The scale factor is not validated: with a background that opens and a
    left logo that decodes, a scale factor of zero surfaces as the
    [ZeroDivisionError] of line 34, before the output path is touched. *)
Theorem zero_scale_factor_raises (fs : gmap string node)
    (background left_logo right_logo output_path : string) (v : video) (logo : Mat) :
  probe fs background = Ok v ->
  imread fs left_logo = Some logo ->
  overlay_logos interp fs background left_logo right_logo output_path 0
    = (Raise ZeroDivisionError, fs).
Proof.
  intros Hv Hl. apply overlay_logos_load_failure.
  unfold load_inputs. rewrite Hv. simpl.
  unfold load_and_resize_logo at 1.
  by rewrite (imread_exists fs left_logo logo Hl), Hl.
Qed.

(** X2: A scale factor that leaves an empty box (both [frame_width //
    scale_factor] and [frame_height // scale_factor] at most zero, as when
    the scale factor exceeds both sides of the frame) never yields a logo: the
    loader raises whatever the image is. *)
Theorem empty_box_never_loads (fs : gmap string node) (logo_path : string)
    (fw fh sf : Z) :
  fw / sf <= 0 -> fh / sf <= 0 ->
  is_ok (load_and_resize_logo interp fs logo_path fw fh sf) = false.
Proof.
  intros Hw Hh.
  destruct (load_and_resize_logo interp fs logo_path fw fh sf) as [[[m w] h]|e] eqn:E;
    [| reflexivity].
  exfalso.
  apply load_and_resize_logo_inv in E as (logo & _ & _ & _ & E).
  apply resize_with_aspect_ratio_inv in E as (r & _ & Hres & Hbranch).
  apply cv2_resize_shape in Hres as (? & ? & _ & _).
  destruct (gt_one r); destruct Hbranch as [-> _]; lia.
Qed.

End ScaleFactor.

Lemma zero_scale_factor_raises_witness :
  (probe fs_small "bg.mp4" = Ok (small_video [frame0; frame1]) /\
   imread fs_small "left.png" = Some left_logo0) /\
  overlay_logos nearest fs_small "bg.mp4" "left.png" "right.png" "out/old.mp4" 0
    = (Raise ZeroDivisionError, fs_small).
Proof.
  assert (H1 : probe fs_small "bg.mp4" = Ok (small_video [frame0; frame1]))
    by (vm_compute; reflexivity).
  assert (H2 : imread fs_small "left.png" = Some left_logo0)
    by (vm_compute; reflexivity).
  split; [auto |].
  exact (zero_scale_factor_raises nearest fs_small "bg.mp4" "left.png" "right.png"
           "out/old.mp4" _ _ H1 H2).
Defined.

Lemma empty_box_never_loads_witness :
  (16 / 100 <= 0 /\ 8 / 100 <= 0) /\
  is_ok (load_and_resize_logo nearest fs_small "left.png" 16 8 100) = false.
Proof.
  assert (H1 : 16 / 100 <= 0) by (vm_compute; discriminate).
  assert (H2 : 8 / 100 <= 0) by (vm_compute; discriminate).
  split; [auto |].
  exact (empty_box_never_loads nearest fs_small "left.png" 16 8 100 H1 H2).
Defined.
